(** * openshift2nulecule: the export and image relocation pipeline

    A shallow embedding of [openshift2nulecule/openshift.py]: the
    [OpenshiftClient.export_project] loop and the [ExportedProject] class
    (constructor, [pull_images], [push_images], [update_artifacts_images]).

    Python dictionaries keyed by provider are [gmap string _]; exported
    documents are records holding the fields the program reads; exceptions
    are values of [error] carried by the [result] monad; the commands handed
    to [utils.run_cmd] are collected in a log.

    The documents reach [ExportedProject] from one [anymarkup.parse] per
    provider, so no document or container is shared between two lists, and
    every entry of the inventory is a dictionary of its own: an update in
    place of one of them is an update of that position of its list. *)

From Stdlib Require Import Ascii String ZArith.
From stdpp Require Import gmap strings list fin_maps.

Local Open Scope string_scope.
Local Open Scope list_scope.

(** ** Exceptions *)

(** The exceptions the modelled code can raise.  [FormatError] is the
    [Exception(msg)] raised by [export_project] when the output of
    [oc export] is not a List; the other three are the built-in Python
    exceptions of a failed dictionary lookup, of [list.remove] on an absent
    element and of reading an unbound local variable. *)
Inductive error : Type :=
  | FormatError (msg : string)
  | KeyError (key : string)
  | ValueError (msg : string)
  | NameError (var : string).

Inductive result (A : Type) : Type :=
  | Ok (a : A)
  | Raise (e : error).

Arguments Ok {A} a.
Arguments Raise {A} e.

#[global] Instance result_ret : MRet result := λ A a, Ok a.

#[global] Instance result_bind : MBind result := λ A B f m,
  match m with
  | Ok a => f a
  | Raise e => Raise e
  end.

(** ** Python helpers *)

(** [d[k]] on a dictionary. *)
Definition getitem {V : Type} (d : gmap string V) (k : string) : result V :=
  match d !! k with
  | Some v => Ok v
  | None => Raise (KeyError k)
  end.

(** Truth value of a string: the empty string is false. *)
Definition truthy (s : string) : bool := bool_decide (s ≠ "").

(** Truth value of a value that is either [None] (or an absent key read
    with a false default) or a string. *)
Definition truthy_opt (o : option string) : bool :=
  match o with
  | Some s => truthy s
  | None => false
  end.

(** Truth value of a dictionary: the empty dictionary is false. *)
Definition truthy_dict (d : gmap string string) : bool := bool_decide (d ≠ ∅).

(** ["{}".format v] for a value that is [None] or a string. *)
Definition pyformat (o : option string) : string := default "None" o.

(** [l.remove(x)]: drops the first element equal to [x], and raises
    ValueError when there is none. *)
Fixpoint list_remove {A : Type} `{EqDecision A} (x : A) (l : list A)
    : result (list A) :=
  match l with
  | [] => Raise (ValueError "list.remove(x): x not in list")
  | y :: l' =>
      if decide (y = x) then Ok l'
      else l'' ← list_remove x l'; Ok (y :: l'')
  end.

(** [s.replace(c, "")] for a pattern [c] of one character. *)
Fixpoint str_remove (c : ascii) (s : string) : string :=
  match s with
  | EmptyString => EmptyString
  | String a s' =>
      if decide (a = c) then str_remove c s' else String a (str_remove c s')
  end.

(** [for x in l: acc = body acc x] where the body may raise. *)
Fixpoint for_each {A S : Type} (body : S → A → result S) (l : list A) (acc : S)
    : result S :=
  match l with
  | [] => Ok acc
  | x :: l' => acc' ← body acc x; for_each body l' acc'
  end.

(** ** Data model *)

(** One entry of [spec.template.spec.containers]. *)
Record Container : Type := mkContainer {
  container_image : string;
  container_other : gmap string string
}.

(** The [metadata] dictionary; [annotations] is an optional key. *)
Record Metadata : Type := mkMetadata {
  name : string;
  annotations : option (gmap string string);
  metadata_other : gmap string string
}.

(** One exported document.  [containers] is the list found at
    [spec.template.spec.containers], read for workload kinds only; the
    keys the program never reads are kept in [artifact_other]. *)
Record Artifact : Type := mkArtifact {
  kind : string;
  metadata : Metadata;
  containers : list Container;
  artifact_other : gmap string string
}.

(** One entry of [ExportedProject.images]. *)
Record ImageInfo : Type := mkImageInfo {
  original_image : string;
  image : string;
  internal : bool
}.

(** The parsed output of [oc export]: [objects["kind"]], [objects["items"]]. *)
Record Envelope : Type := mkEnvelope {
  envelope_kind : string;
  items : list Artifact
}.

Record OpenshiftClient : Type := mkOpenshiftClient {
  oc : string;
  namespace : option string;
  oc_config : option string;
  selector : option string
}.

Record ExportedProject : Type := mkExportedProject {
  artifacts : gmap string (list Artifact);
  images : list ImageInfo
}.

(** A command line handed to [utils.run_cmd]. *)
Abbreviation command := (list string).

#[global] Instance Container_eq_dec : EqDecision Container.
Proof. solve_decision. Defined.
#[global] Instance Metadata_eq_dec : EqDecision Metadata.
Proof. solve_decision. Defined.
#[global] Instance Artifact_eq_dec : EqDecision Artifact.
Proof. solve_decision. Defined.
#[global] Instance ImageInfo_eq_dec : EqDecision ImageInfo.
Proof. solve_decision. Defined.

Definition set_container_image (v : string) (c : Container) : Container :=
  mkContainer v (container_other c).

Definition set_image (v : string) (info : ImageInfo) : ImageInfo :=
  mkImageInfo (original_image info) v (internal info).

Definition set_containers (cs : list Container) (a : Artifact) : Artifact :=
  mkArtifact (kind a) (metadata a) cs (artifact_other a).

(** [del obj["metadata"]["annotations"]] *)
Definition del_annotations (a : Artifact) : Artifact :=
  mkArtifact (kind a)
    (mkMetadata (name (metadata a)) None (metadata_other (metadata a)))
    (containers a) (artifact_other a).

Definition set_artifacts (p : string) (arts : list Artifact)
    (self : ExportedProject) : ExportedProject :=
  mkExportedProject (<[p := arts]> (artifacts self)) (images self).

(** [obj.get("metadata", {}).get("annotations", {})] *)
Definition get_annotations (obj : Artifact) : gmap string string :=
  default ∅ (annotations (metadata obj)).

(** ** The modules the program imports *)

(** What [openshift.py] imports and the sources do not contain: the
    functions of [openshift2nulecule.utils], the JSON parser of
    [anymarkup], and the predicate that tells whether an image lives in the
    cluster's internal registry. *)
Class Env : Type := mkEnv {
  run_cmd : command → Z * string * string;
  anymarkup_parse : string → Envelope;
  is_internal : string → bool;
  replace_registry_host : string → string → string;
  parse_image_name : string → string * option string * option string
}.

(** Modelled from the spec: the constant [NULECULE_PROVIDERS] of
    [openshift2nulecule.constants], which the sources do not contain; the
    spec names the two provider profiles, and [export_project] has a
    branch for each of them. *)
Definition NULECULE_PROVIDERS : list string := ["kubernetes"; "openshift"].

(** ** The program *)

Section Program.
Context `{env : Env}.

(** *** OpenshiftClient *)

Definition _call_oc (self : OpenshiftClient) (args : list string)
    : Z * string * string :=
  let cmd := [oc self] in
  let cmd :=
    match oc_config self with
    | Some c => if truthy c then cmd ++ ["--config"; c] else cmd
    | None => cmd
    end in
  let cmd :=
    match namespace self with
    | Some n => if truthy n then cmd ++ ["--namespace"; n] else cmd
    | None => cmd
    end in
  let cmd := cmd ++ args in
  run_cmd cmd.

(** The [if provider == ... elif provider == ...] of the loop body: the
    variable [resources] keeps its previous binding when neither branch is
    taken. *)
Definition select_resources (provider : string) (resources : option (list string))
    : option (list string) :=
  if decide (provider = "kubernetes") then
    Some ["persistentVolumeClaim"; "service"; "replicationController"]
  else if decide (provider = "openshift") then
    Some ["imageStream"; "service"; "persistentVolumeClaim";
          "replicationController"; "deploymentConfig"; "buildConfig"]
  else resources.

Definition export_args (self : OpenshiftClient) (resources : list string)
    : list string :=
  let args := ["export"; String.concat "," resources; "-o"; "json"] in
  match selector self with
  | Some sel => if truthy sel then args ++ ["-l"; sel] else args
  | None => args
  end.

(** [anymarkup.parse(stdout, ...)] of the output of [oc export].  The
    exit code is not looked at, as in the source.  The model covers the runs
    in which the parser returns a dictionary that has a kind and items: a
    run in which the parser raises on the output, or the dictionary lacks
    one of the two keys, has no counterpart here. *)
Definition export_objects (self : OpenshiftClient) (resources : list string)
    : Envelope :=
  let '(ec, stdout, stderr) := _call_oc self (export_args self resources) in
  anymarkup_parse stdout.

Definition not_a_list_msg : string :=
  "Output of `oc export` command is of diferent kind than 'List'".

(** The loop [for provider in NULECULE_PROVIDERS] of [export_project]. *)
Fixpoint export_loop (self : OpenshiftClient) (providers : list string)
    (resources : option (list string))
    (all_artifacts : gmap string (list Artifact))
    : result (gmap string (list Artifact)) :=
  match providers with
  | [] => Ok all_artifacts
  | provider :: providers' =>
      let resources := select_resources provider resources in
      rs ← match resources with
           | Some rs => Ok rs
           | None => Raise (NameError "resources")
           end;
      let objects := export_objects self rs in
      arts ← (if decide (envelope_kind objects = "List")
              then Ok (items objects)
              else Raise (FormatError not_a_list_msg));
      export_loop self providers' resources (<[provider := arts]> all_artifacts)
  end.

(** *** ExportedProject *)

(** The test [artifact["kind"] in ["ReplicationController", "DeploymentConfig"]]. *)
Definition is_workload (artifact : Artifact) : bool :=
  bool_decide (kind artifact ∈ ["ReplicationController"; "DeploymentConfig"]).

(** Modelled from the spec: [utils.get_image_info], which the sources do
    not contain.  Per the spec it yields one entry per container of the
    artifact, in container order, with [original_image] and [image] both the
    container's image string and [internal] given by the internal-registry
    predicate. *)
Definition get_image_info (obj : Artifact) : list ImageInfo :=
  map (λ c, mkImageInfo (container_image c) (container_image c)
                        (is_internal (container_image c)))
      (containers obj).

(** The inner loop of the constructor, [for artifact in self.artifacts[provider]]. *)
Definition scan_artifacts (imgs : list ImageInfo) (arts : list Artifact)
    : list ImageInfo :=
  foldl (λ acc artifact,
           if is_workload artifact then acc ++ get_image_info artifact else acc)
        imgs arts.

(** The outer loop of the constructor, [for provider in NULECULE_PROVIDERS]. *)
Definition scan_providers (arts : gmap string (list Artifact))
    (providers : list string) (imgs : list ImageInfo) : result (list ImageInfo) :=
  for_each (λ acc provider,
              l ← getitem arts provider; Ok (scan_artifacts acc l))
           providers imgs.

(** The body of the loop of [_remove_imagestream_annotations]. *)
Definition scrub (obj : Artifact) : Artifact :=
  if decide (kind obj = "ImageStream") then
    if truthy_dict (get_annotations obj) then del_annotations obj else obj
  else obj.

Definition _remove_imagestream_annotations (self : ExportedProject)
    : result ExportedProject :=
  arts ← getitem (artifacts self) "openshift";
  Ok (set_artifacts "openshift" (map scrub arts) self).

(** The value of [deployment_config_name] in [_remove_openshift_objects]:
    [None] stands for the default [{}] of an absent key. *)
Definition deployment_config_name (obj : Artifact) : option string :=
  get_annotations obj !! "openshift.io/deployment-config.name".

(** The two nested tests of [_remove_openshift_objects]. *)
Definition created_by_dc (obj : Artifact) : bool :=
  bool_decide (kind obj = "ReplicationController")
  && truthy_opt (deployment_config_name obj).

(** The body of the loop of [_remove_openshift_objects]; [cur] is the
    list [self.artifacts["openshift"]] being shortened. *)
Definition prune_step (cur : list Artifact) (obj : Artifact)
    : result (list Artifact) :=
  if decide (kind obj = "ReplicationController") then
    if truthy_opt (deployment_config_name obj) then list_remove obj cur
    else Ok cur
  else Ok cur.

(** The loop runs over [list(self.artifacts["openshift"])], a copy of the
    list taken before the first removal. *)
Definition _remove_openshift_objects (self : ExportedProject)
    : result ExportedProject :=
  arts ← getitem (artifacts self) "openshift";
  arts' ← for_each prune_step arts arts;
  Ok (set_artifacts "openshift" arts' self).

(** The constructor up to the end of the inventory loop. *)
Definition init_images (arts : gmap string (list Artifact))
    : result ExportedProject :=
  imgs ← scan_providers arts NULECULE_PROVIDERS [];
  Ok (mkExportedProject arts imgs).

(** The constructor up to and including the first of its two calls. *)
Definition init_first_call (arts : gmap string (list Artifact))
    : result ExportedProject :=
  self ← init_images arts;
  _remove_imagestream_annotations self.

(** [ExportedProject.__init__] *)
Definition __init__ (arts : gmap string (list Artifact))
    : result ExportedProject :=
  self ← init_first_call arts;
  _remove_openshift_objects self.

(** [OpenshiftClient.export_project] *)
Definition export_project (self : OpenshiftClient) : result ExportedProject :=
  all_artifacts ← export_loop self NULECULE_PROVIDERS None ∅;
  __init__ all_artifacts.

(** *** Image operations

    [utils.run_cmd] is called for its effect only: the three operations
    below discard what it returns, and the model records the command lines
    in the order in which they are issued. *)

(** [for image_info in self.images]: the body rewrites the entry in place
    and issues commands. *)
Fixpoint for_images (body : ImageInfo → ImageInfo * list command)
    (imgs : list ImageInfo) : list ImageInfo * list command :=
  match imgs with
  | [] => ([], [])
  | info :: imgs' =>
      let '(info', cmds) := body info in
      let '(imgs'', cmds') := for_images body imgs' in
      (info' :: imgs'', cmds ++ cmds')
  end.

Definition docker_login (registry username password : string) : command :=
  ["docker"; "login"; "-u"; username; "-p"; password;
   "-e"; username +:+ "@" +:+ registry; registry].

(** The body of the loop of [pull_images]; the second component of the
    first pair is true when the [continue] is reached. *)
Definition pull_image (registry : string) (only_internal : bool)
    (image_info : ImageInfo) : ImageInfo * list command :=
  let '(image_info, skip) :=
    if internal image_info then
      (set_image (replace_registry_host (image image_info) registry) image_info,
       false)
    else (image_info, only_internal) in
  if skip then (image_info, [])
  else (image_info, [["docker"; "pull"; image image_info]]).

Definition pull_images (self : ExportedProject)
    (registry username password : string) (only_internal : bool)
    : ExportedProject * list command :=
  let login := docker_login registry username password in
  let '(imgs, cmds) := for_images (pull_image registry only_internal) (images self) in
  (mkExportedProject (artifacts self) imgs, login :: cmds).

(** The body of the loop of [push_images]. *)
Definition push_image (registry : string) (only_internal : bool)
    (image_info : ImageInfo) : ImageInfo * list command :=
  if only_internal && negb (internal image_info) then (image_info, [])
  else
    let image := image image_info in
    let name_new_registry := replace_registry_host image registry in
    let '(new_name, new_name_tag, new_name_digest) :=
      parse_image_name name_new_registry in
    let tag :=
      if truthy_opt new_name_digest
      then Some (str_remove ":" (default "" new_name_digest))
      else new_name_tag in
    let new_full_name := new_name +:+ ":" +:+ pyformat tag in
    (set_image new_full_name image_info,
     [["docker"; "tag"; "-f"; image; new_full_name];
      ["docker"; "push"; new_full_name]]).

(** [username] and [password] may be [None]: no login is attempted then. *)
Definition push_images (self : ExportedProject) (registry : string)
    (username password : option string) (only_internal : bool)
    : ExportedProject * list command :=
  let login :=
    if truthy_opt username && truthy_opt password
    then [docker_login registry (default "" username) (default "" password)]
    else [] in
  let '(imgs, cmds) := for_images (push_image registry only_internal) (images self) in
  (mkExportedProject (artifacts self) imgs, login ++ cmds).

(** The innermost loop of [update_artifacts_images], [for image in
    self.images]: each test reads the container's image as the earlier
    iterations left it. *)
Definition update_container (imgs : list ImageInfo) (container : Container)
    : Container :=
  foldl (λ c info,
           if decide (container_image c = original_image info)
           then set_container_image (image info) c
           else c)
        container imgs.

Definition update_artifact (imgs : list ImageInfo) (artifact : Artifact)
    : Artifact :=
  if is_workload artifact
  then set_containers (map (update_container imgs) (containers artifact)) artifact
  else artifact.

(** The loop [for provider in NULECULE_PROVIDERS] of
    [update_artifacts_images]; the artifacts are rewritten in place. *)
Definition update_providers (imgs : list ImageInfo) (providers : list string)
    (arts : gmap string (list Artifact)) : result (gmap string (list Artifact)) :=
  for_each (λ acc provider,
              l ← getitem acc provider;
              Ok (<[provider := map (update_artifact imgs) l]> acc))
           providers arts.

Definition update_artifacts_images (self : ExportedProject)
    : result ExportedProject :=
  arts ← update_providers (images self) NULECULE_PROVIDERS (artifacts self);
  Ok (mkExportedProject arts (images self)).

End Program.

(** ** A reference environment

    The theorems below hold for every environment; the functions of this
    section give one, used to run the program on the spec's examples. *)

(** Splits a string at the first occurrence of a character. *)
Fixpoint split_at (c : ascii) (s : string) : option (string * string) :=
  match s with
  | EmptyString => None
  | String a s' =>
      if decide (a = c) then Some (EmptyString, s')
      else match split_at c s' with
           | Some (l, r) => Some (String a l, r)
           | None => None
           end
  end.

(** Modelled from the spec: [utils.replace_registry_host], which the
    sources do not contain.  Per the spec (HostSubstitution) it replaces
    only the registry-host component of an image reference and preserves
    path, tag and digest. *)
Definition host_substitution (image new_host : string) : string :=
  match split_at "/" image with
  | Some (_, path) => new_host +:+ "/" +:+ path
  | None => new_host +:+ "/" +:+ image
  end.

(** Splits off the tag: the text after the first colon that has no slash
    after it. *)
Fixpoint split_tag (s : string) : string * option string :=
  match s with
  | EmptyString => (EmptyString, None)
  | String a s' =>
      if bool_decide (a = ":"%char ∧ split_at "/" s' = None)
      then (EmptyString, Some s')
      else let '(n, t) := split_tag s' in (String a n, t)
  end.

(** Modelled from the spec: [utils.parse_image_name], which the sources
    do not contain.  Per the spec (ImageNameParse) it returns the name of an
    image reference with its tag, if any, and its digest, if any. *)
Definition image_name_parse (image : string)
    : string * option string * option string :=
  match split_at "@" image with
  | Some (n, digest) => (n, None, Some digest)
  | None => let '(n, tag) := split_tag image in (n, tag, None)
  end.

Definition example_env : Env :=
  mkEnv (λ _, (0%Z, "", ""))
        (λ _, mkEnvelope "List" [])
        (λ image, String.prefix "172.30." image)
        host_substitution
        image_name_parse.

(** An environment whose cluster answers every [oc export] with a Pod. *)
Definition pod_env : Env :=
  mkEnv (λ _, (0%Z, "", ""))
        (λ _, mkEnvelope "Pod" [])
        (λ image, String.prefix "172.30." image)
        host_substitution
        image_name_parse.

(** ** Vocabulary of the specification *)

Definition backref_key : string := "openshift.io/deployment-config.name".

(** A replication controller whose annotations carry the deployment-config
    back-reference annotation, whatever its value. *)
Definition carries_backref (obj : Artifact) : Prop :=
  kind obj = "ReplicationController" ∧ is_Some (get_annotations obj !! backref_key).

(** A replication controller whose back-reference annotation names a
    deployment config, that is, has a value other than the empty string. *)
Definition names_deployment_config (obj : Artifact) : Prop :=
  kind obj = "ReplicationController"
  ∧ ∃ v, get_annotations obj !! backref_key = Some v ∧ v ≠ "".

(** What the scan of [update_artifacts_images] makes of an image string:
    the inventory is read in order, and an entry whose [original_image] is
    the string reached so far replaces it by its [image]. *)
Definition rewrite_image (imgs : list ImageInfo) (s : string) : string :=
  foldl (λ s info, if decide (s = original_image info) then image info else s)
        s imgs.

(** The last entry of the inventory whose [original_image] is [s]. *)
Definition last_match (imgs : list ImageInfo) (s : string) : option ImageInfo :=
  last (filter (λ info, original_image info = s) imgs).

(** No entry's current image is the [original_image] of an entry that
    holds another image. *)
Definition no_collision (imgs : list ImageInfo) : Prop :=
  ∀ e e', e ∈ imgs → e' ∈ imgs →
    image e = original_image e' → image e' = image e.

(** Entries that share an [original_image] hold the same image. *)
Definition same_rewrite (imgs : list ImageInfo) : Prop :=
  ∀ e e', e ∈ imgs → e' ∈ imgs →
    original_image e = original_image e' → image e = image e'.

Section SpecOrder.
Context `{env : Env}.

(** The constructor's first two derivations in the order in which the
    specification lists them: inventory, then pruning. *)
Definition spec_first_two (arts : gmap string (list Artifact))
    : result ExportedProject :=
  self ← init_images arts;
  _remove_openshift_objects self.

(** The three derivations in the order of the specification: inventory,
    pruning, scrubbing. *)
Definition spec_init (arts : gmap string (list Artifact))
    : result ExportedProject :=
  self ← spec_first_two arts;
  _remove_imagestream_annotations self.

End SpecOrder.

(** ** Example inputs *)

Definition plain_metadata (n : string) : Metadata := mkMetadata n None ∅.

Definition annotated_metadata (n k v : string) : Metadata :=
  mkMetadata n (Some {[ k := v ]}) ∅.

Definition container_of (img : string) : Container := mkContainer img ∅.

(** A replication controller whose back-reference annotation is empty. *)
Definition rc_empty_backref : Artifact :=
  mkArtifact "ReplicationController"
    (annotated_metadata "web-1" backref_key "")
    [container_of "172.30.1.1:5000/demo/web:v1"] ∅.

Definition arts_empty_backref : gmap string (list Artifact) :=
  {[ "kubernetes" := []; "openshift" := [rc_empty_backref] ]}.

(** An image stream with an annotation, a deployment config and the
    replication controller it generated. *)
Definition is_annotated : Artifact :=
  mkArtifact "ImageStream"
    (annotated_metadata "web" "openshift.io/image.dockerRepositoryCheck" "2016")
    [] ∅.

Definition dc_web : Artifact :=
  mkArtifact "DeploymentConfig" (plain_metadata "web")
    [container_of "172.30.1.1:5000/demo/web:v1"] ∅.

Definition rc_generated : Artifact :=
  mkArtifact "ReplicationController"
    (annotated_metadata "web-1" backref_key "web")
    [container_of "172.30.1.1:5000/demo/web@sha256:abcd1234"] ∅.

Definition svc_web : Artifact :=
  mkArtifact "Service" (annotated_metadata "web" "team" "demo") [] ∅.

Definition rc_plain : Artifact :=
  mkArtifact "ReplicationController" (plain_metadata "db")
    [container_of "docker.io/library/postgres:9"; container_of "docker.io/library/busybox"] ∅.

Definition arts_demo : gmap string (list Artifact) :=
  {[ "kubernetes" := [svc_web; rc_plain];
     "openshift" := [is_annotated; svc_web; rc_generated; dc_web] ]}.

Definition client_demo : OpenshiftClient :=
  mkOpenshiftClient "/usr/bin/oc" (Some "demo") None None.

(** The inventory the constructor derives from [arts_demo]. *)
Definition images_demo : list ImageInfo :=
  [ mkImageInfo "docker.io/library/postgres:9" "docker.io/library/postgres:9" false;
    mkImageInfo "docker.io/library/busybox" "docker.io/library/busybox" false;
    mkImageInfo "172.30.1.1:5000/demo/web@sha256:abcd1234"
                "172.30.1.1:5000/demo/web@sha256:abcd1234" true;
    mkImageInfo "172.30.1.1:5000/demo/web:v1" "172.30.1.1:5000/demo/web:v1" true ].

Definition model_demo : ExportedProject := mkExportedProject arts_demo images_demo.

(** The digest-tagged image of the specification's example. *)
Definition info_digest : ImageInfo :=
  mkImageInfo "registry.example.com/app@sha256:abcd1234"
              "registry.example.com/app@sha256:abcd1234" true.

Definition model_digest : ExportedProject :=
  mkExportedProject {[ "kubernetes" := []; "openshift" := [] ]} [info_digest].

Definition rc_with (img : string) : Artifact :=
  mkArtifact "ReplicationController" (plain_metadata "web") [container_of img] ∅.

Definition img_internal : string := "172.30.1.1:5000/demo/web:v1".
Definition img_registry : string := "registry.example.com/demo/web:v1".
Definition img_mirror : string := "mirror.example.com/demo/web:v1".

Definition info_internal_to_registry : ImageInfo :=
  mkImageInfo img_internal img_registry true.
Definition info_registry_to_mirror : ImageInfo :=
  mkImageInfo img_registry img_mirror false.
Definition info_internal_to_mirror : ImageInfo :=
  mkImageInfo img_internal img_mirror true.

Definition arts_one (img : string) : gmap string (list Artifact) :=
  {[ "kubernetes" := [rc_with img]; "openshift" := [] ]}.

(** One entry, already rewritten by a pull. *)
Definition model_pulled : ExportedProject :=
  mkExportedProject (arts_one img_internal) [info_internal_to_registry].

(** An entry whose image is the [original_image] of the next one. *)
Definition model_chain : ExportedProject :=
  mkExportedProject (arts_one img_internal)
    [info_internal_to_registry; info_registry_to_mirror].

(** The same two entries in the other order. *)
Definition model_chain_reversed : ExportedProject :=
  mkExportedProject (arts_one img_internal)
    [info_registry_to_mirror; info_internal_to_registry].

(** Two entries with one [original_image] and different images. *)
Definition images_diverging : list ImageInfo :=
  [info_internal_to_registry; info_internal_to_mirror].

(** ** Locating the oc binary *)

(** What [_find_oc] asks of the operating system: [utils.get_path] and
    [os.access(path, os.X_OK)]. *)
Class Os : Type := mkOs {
  get_path : string → string;
  access_x_ok : string → bool
}.

Definition test_paths : list string := ["/usr/bin/oc"; "/usr/local/bin/oc"].

Section FindOc.
Context `{os : Os}.

(** The loop [for path in test_paths] of [_find_oc], which returns from
    inside the loop at the first executable candidate. *)
Fixpoint find_oc_loop (paths : list string) : option string :=
  match paths with
  | [] => None
  | path :: paths' =>
      let test_path := get_path path in
      let oc := test_path in
      if access_x_ok oc then Some oc else find_oc_loop paths'
  end.

(** [OpenshiftClient._find_oc]; [None] after the loop. *)
Definition _find_oc : option string := find_oc_loop test_paths.

End FindOc.

(** ** Vocabulary of the further results *)

(** An inventory as the constructor leaves it: no entry rewritten yet. *)
Definition fresh (is_int : string → bool) (imgs : list ImageInfo) : Prop :=
  ∀ e, e ∈ imgs →
    image e = original_image e ∧ internal e = is_int (original_image e).

(** Entries that share an [original_image] agree on the rest. *)
Definition coherent (imgs : list ImageInfo) : Prop :=
  ∀ e e', e ∈ imgs → e' ∈ imgs →
    original_image e = original_image e' →
    image e = image e' ∧ internal e = internal e'.

(** An entry whose image is replaced by [f] of it when [sel] holds of its
    [internal] flag. *)
Definition relocate_info (sel : bool → bool) (f : string → string)
    (info : ImageInfo) : ImageInfo :=
  if sel (internal info) then set_image (f (image info)) info else info.

Definition relocate_container (sel : string → bool) (f : string → string)
    (c : Container) : Container :=
  if sel (container_image c) then set_container_image (f (container_image c)) c
  else c.

(** A workload whose containers' images are replaced by [f] of them when
    [sel] holds of them; any other document as it is. *)
Definition relocate_artifact (sel : string → bool) (f : string → string)
    (a : Artifact) : Artifact :=
  if is_workload a
  then set_containers (map (relocate_container sel f) (containers a)) a
  else a.

(** The image strings of the containers of the workloads of a list. *)
Definition workload_images (arts : list Artifact) : list string :=
  flat_map (λ a, map container_image (containers a))
           (filter (λ a, is_workload a) arts).

(** The name under which [push_images] retags and pushes a reference. *)
Definition push_name `{env : Env} (registry image : string) : string :=
  let '(new_name, new_name_tag, new_name_digest) :=
    parse_image_name (replace_registry_host image registry) in
  new_name +:+ ":" +:+
  pyformat (if truthy_opt new_name_digest
            then Some (str_remove ":" (default "" new_name_digest))
            else new_name_tag).

(** Whether a character occurs in a string. *)
Fixpoint str_mem (c : ascii) (s : string) : bool :=
  match s with
  | EmptyString => false
  | String a s' => bool_decide (a = c) || str_mem c s'
  end.

(** An environment whose cluster answers every [oc export] with a List of
    one deployment config and the replication controller it generated. *)
Definition list_env : Env :=
  mkEnv (λ _, (0%Z, "", ""))
        (λ _, mkEnvelope "List" [rc_generated; dc_web])
        (λ image, String.prefix "172.30." image)
        host_substitution
        image_name_parse.

(** An inventory in which two entries come from containers with the same
    image, next to an entry for an image of its own. *)
Definition info_web : ImageInfo := mkImageInfo img_internal img_internal true.
Definition info_db : ImageInfo :=
  mkImageInfo "docker.io/library/postgres:9" "docker.io/library/postgres:9" false.

Definition model_shared : ExportedProject :=
  mkExportedProject
    {[ "kubernetes" := [rc_with img_internal; rc_with img_internal; rc_plain];
       "openshift" := [] ]}
    [info_web; info_web; info_db].

(** An operating system where only the second candidate is executable. *)
Definition os_local : Os :=
  mkOs (λ p, p) (λ p, bool_decide (p = "/usr/local/bin/oc")).

(** ** Properties *)

Section Properties.
Context `{env : Env}.

(** *** The result monad and the loops *)

Lemma bind_Ok {A B : Type} (f : A → result B) (a : A) : Ok a ≫= f = f a.
Proof. reflexivity. Qed.

Lemma getitem_Some {V : Type} (d : gmap string V) (k : string) (v : V) :
  d !! k = Some v → getitem d k = Ok v.
Proof. intros H. unfold getitem. by rewrite H. Qed.

(** *** list.remove *)

Lemma list_remove_first (x : Artifact) (p q : list Artifact) :
  Forall (λ y, y ≠ x) p → list_remove x (p ++ x :: q) = Ok (p ++ q).
Proof.
  induction 1 as [|y p Hy _ IH]; simpl.
  - by rewrite decide_True.
  - rewrite decide_False by done. by rewrite IH.
Qed.

(** *** _remove_openshift_objects *)

Lemma prune_step_created (cur : list Artifact) (obj : Artifact) :
  created_by_dc obj = true → prune_step cur obj = list_remove obj cur.
Proof.
  unfold created_by_dc, prune_step. intros [Hk Ht]%andb_prop.
  apply bool_decide_eq_true in Hk. rewrite decide_True by done. by rewrite Ht.
Qed.

Lemma prune_step_kept (cur : list Artifact) (obj : Artifact) :
  created_by_dc obj = false → prune_step cur obj = Ok cur.
Proof.
  unfold created_by_dc, prune_step. intros H.
  destruct (decide (kind obj = "ReplicationController")) as [Hk|Hk]; [|done].
  rewrite bool_decide_eq_true_2 in H by done. simpl in H. by rewrite H.
Qed.

(** The invariant of the pruning loop: when the loop has gone through [p]
    and still has [q] to visit, the list holds what is kept of [p] followed
    by [q]. *)
Lemma prune_loop (q p : list Artifact) :
  for_each prune_step q (filter (λ x, ¬ created_by_dc x) p ++ q)
  = Ok (filter (λ x, ¬ created_by_dc x) (p ++ q)).
Proof.
  revert p. induction q as [|x q IH]; intros p; simpl.
  - by rewrite !app_nil_r.
  - destruct (created_by_dc x) eqn:Hx.
    + rewrite prune_step_created by done.
      rewrite list_remove_first.
      * simpl. rewrite IH. f_equal. rewrite !filter_app. f_equal.
        rewrite filter_cons_False; [done|]. rewrite Hx. by intros [].
      * apply Forall_forall. intros y [Hy _]%list_elem_of_filter ->.
        apply Hy. by rewrite Hx.
    + rewrite prune_step_kept by done. simpl.
      specialize (IH (p ++ [x])). rewrite filter_app in IH.
      rewrite (filter_cons_True _ x) in IH by (rewrite Hx; by intros []).
      rewrite filter_nil in IH. rewrite <-!app_assoc in IH. simpl in IH.
      by rewrite IH.
Qed.

Lemma prune_snapshot (l : list Artifact) :
  for_each prune_step l l = Ok (filter (λ x, ¬ created_by_dc x) l).
Proof. apply (prune_loop l []). Qed.

Lemma remove_openshift_objects_ok (self : ExportedProject) (o : list Artifact) :
  artifacts self !! "openshift" = Some o →
  _remove_openshift_objects self
  = Ok (set_artifacts "openshift" (filter (λ x, ¬ created_by_dc x) o) self).
Proof.
  intros Ho. unfold _remove_openshift_objects.
  rewrite (getitem_Some _ _ _ Ho). simpl. by rewrite prune_snapshot.
Qed.

(** *** _remove_imagestream_annotations *)

Lemma remove_imagestream_annotations_ok (self : ExportedProject) (o : list Artifact) :
  artifacts self !! "openshift" = Some o →
  _remove_imagestream_annotations self
  = Ok (set_artifacts "openshift" (map scrub o) self).
Proof.
  intros Ho. unfold _remove_imagestream_annotations.
  by rewrite (getitem_Some _ _ _ Ho).
Qed.

Lemma scrub_kind (obj : Artifact) : kind (scrub obj) = kind obj.
Proof.
  unfold scrub. destruct (decide _); [|done]. by destruct (truthy_dict _).
Qed.

Lemma scrub_other_kind (obj : Artifact) :
  kind obj ≠ "ImageStream" → scrub obj = obj.
Proof. intros H. unfold scrub. by rewrite decide_False. Qed.

Lemma scrub_imagestream (obj : Artifact) :
  kind obj = "ImageStream" → get_annotations (scrub obj) = ∅.
Proof.
  intros H. unfold scrub. rewrite decide_True by done.
  destruct (truthy_dict (get_annotations obj)) eqn:Ht; [done|].
  unfold truthy_dict in Ht. apply bool_decide_eq_false in Ht.
  by apply dec_stable in Ht.
Qed.

Lemma scrub_imagestream_key (obj : Artifact) :
  kind obj = "ImageStream" →
  annotations (metadata (scrub obj)) = None
  ∨ annotations (metadata (scrub obj)) = Some ∅.
Proof.
  intros H. unfold scrub. rewrite decide_True by done.
  destruct (truthy_dict (get_annotations obj)) eqn:Ht; [by left|].
  unfold truthy_dict in Ht. apply bool_decide_eq_false, dec_stable in Ht.
  unfold get_annotations in Ht.
  destruct (annotations (metadata obj)) as [m|]; [right|by left].
  simpl in Ht. by rewrite Ht.
Qed.

Lemma scrub_created_by_dc (obj : Artifact) :
  created_by_dc (scrub obj) = created_by_dc obj.
Proof.
  destruct (decide (kind obj = "ImageStream")) as [Hk|Hk].
  - unfold created_by_dc. rewrite scrub_kind, Hk.
    by rewrite !bool_decide_eq_false_2.
  - by rewrite scrub_other_kind.
Qed.

(** Pruning and scrubbing act on different kinds, so they commute. *)
Lemma filter_map_scrub (l : list Artifact) :
  filter (λ x, ¬ created_by_dc x) (map scrub l)
  = map scrub (filter (λ x, ¬ created_by_dc x) l).
Proof.
  induction l as [|x l IH]; [done|]. simpl.
  destruct (created_by_dc x) eqn:Hx.
  - rewrite !filter_cons_False; [done| |]; rewrite ?scrub_created_by_dc, Hx;
      by intros [].
  - rewrite !filter_cons_True; [|rewrite ?scrub_created_by_dc, Hx; by intros []..].
    simpl. by rewrite IH.
Qed.

(** *** The inventory loop *)

Lemma scan_artifacts_spec (arts : list Artifact) (imgs : list ImageInfo) :
  scan_artifacts imgs arts
  = imgs ++ flat_map get_image_info (filter (λ a, is_workload a) arts).
Proof.
  unfold scan_artifacts. revert imgs.
  induction arts as [|a arts IH]; intros imgs; simpl.
  - by rewrite app_nil_r.
  - rewrite IH. destruct (is_workload a) eqn:Ha.
    + rewrite filter_cons_True by (by rewrite Ha). simpl. by rewrite app_assoc.
    + rewrite filter_cons_False; [done|]. rewrite Ha. by intros [].
Qed.

Lemma scan_providers_ok (arts : gmap string (list Artifact)) (k o : list Artifact) :
  arts !! "kubernetes" = Some k → arts !! "openshift" = Some o →
  scan_providers arts NULECULE_PROVIDERS []
  = Ok (flat_map get_image_info (filter (λ a, is_workload a) (k ++ o))).
Proof.
  intros Hk Ho. unfold scan_providers, NULECULE_PROVIDERS. simpl.
  rewrite (getitem_Some _ _ _ Hk). simpl.
  rewrite (getitem_Some _ _ _ Ho). simpl.
  rewrite !scan_artifacts_spec. simpl.
  by rewrite filter_app, flat_map_app.
Qed.

(** *** The constructor *)

Lemma init_first_call_ok (arts : gmap string (list Artifact)) (k o : list Artifact) :
  arts !! "kubernetes" = Some k → arts !! "openshift" = Some o →
  init_first_call arts
  = Ok (mkExportedProject
          (<["openshift" := map scrub o]> arts)
          (flat_map get_image_info (filter (λ a, is_workload a) (k ++ o)))).
Proof.
  intros Hk Ho. unfold init_first_call, init_images.
  rewrite (scan_providers_ok _ _ _ Hk Ho). simpl.
  by rewrite (remove_imagestream_annotations_ok _ o).
Qed.

Lemma init_ok (arts : gmap string (list Artifact)) (k o : list Artifact) :
  arts !! "kubernetes" = Some k → arts !! "openshift" = Some o →
  __init__ arts
  = Ok (mkExportedProject
          (<["openshift" := filter (λ x, ¬ created_by_dc x) (map scrub o)]> arts)
          (flat_map get_image_info (filter (λ a, is_workload a) (k ++ o)))).
Proof.
  intros Hk Ho. unfold __init__.
  rewrite (init_first_call_ok _ _ _ Hk Ho). simpl.
  rewrite (remove_openshift_objects_ok _ (map scrub o))
    by (simpl; apply lookup_insert_eq).
  unfold set_artifacts. simpl. by rewrite insert_insert_eq.
Qed.

Lemma spec_init_ok (arts : gmap string (list Artifact)) (k o : list Artifact) :
  arts !! "kubernetes" = Some k → arts !! "openshift" = Some o →
  spec_init arts
  = Ok (mkExportedProject
          (<["openshift" := map scrub (filter (λ x, ¬ created_by_dc x) o)]> arts)
          (flat_map get_image_info (filter (λ a, is_workload a) (k ++ o)))).
Proof.
  intros Hk Ho. unfold spec_init, spec_first_two, init_images.
  rewrite (scan_providers_ok _ _ _ Hk Ho). simpl.
  rewrite (remove_openshift_objects_ok _ o) by done. simpl.
  rewrite (remove_imagestream_annotations_ok _ (filter (λ x, ¬ created_by_dc x) o))
    by (simpl; apply lookup_insert_eq).
  unfold set_artifacts. simpl. by rewrite insert_insert_eq.
Qed.

Lemma created_by_dc_names (obj : Artifact) :
  created_by_dc obj = true ↔ names_deployment_config obj.
Proof.
  unfold created_by_dc, names_deployment_config, deployment_config_name,
    backref_key.
  rewrite andb_true_iff, bool_decide_eq_true.
  destruct (get_annotations obj !! _) as [v|]; simpl.
  - unfold truthy. rewrite bool_decide_eq_true. split.
    + intros [? ?]. eauto.
    + intros [? (w & [= <-] & ?)]. done.
  - split; [by intros [_ ?]|]. by intros [_ (w & ? & _)].
Qed.

Lemma get_image_info_original (a : Artifact) :
  map original_image (get_image_info a) = map container_image (containers a).
Proof. unfold get_image_info. rewrite map_map. done. Qed.

Lemma flat_map_length_sum {A B : Type} (f : A → list B) (l : list A) :
  length (flat_map f l) = sum_list (map (λ a, length (f a)) l).
Proof.
  induction l as [|a l IH]; [done|]. simpl. by rewrite length_app, IH.
Qed.

Lemma map_flat_map {A B C : Type} (g : B → C) (f : A → list B) (l : list A) :
  map g (flat_map f l) = flat_map (λ a, map g (f a)) l.
Proof.
  induction l as [|a l IH]; [done|]. simpl. by rewrite map_app, IH.
Qed.

Lemma Forall2_map_scrub (l : list Artifact) :
  Forall2 (λ x y, kind y = kind x ∧ (kind x ≠ "ImageStream" → y = x))
          l (map scrub l).
Proof.
  induction l as [|x l IH]; simpl; constructor; [|done].
  split; [apply scrub_kind | apply scrub_other_kind].
Qed.

(** *** Results about the constructor *)

(** What the pruning of the constructor does.  For every artifact
    collection that has both provider keys the constructor returns, and the
    openshift artifacts it leaves are the input ones, scrubbed, without
    those the test of [_remove_openshift_objects] selects, in their input
    order.  The test is the truth value of the annotation's value; what it
    does on an annotation that is there with an empty value is stated in
    [C6_empty_backref_kept]. *)
Theorem init_prunes_in_order
    (arts : gmap string (list Artifact)) (k o : list Artifact) :
  arts !! "kubernetes" = Some k → arts !! "openshift" = Some o →
  ∃ self final,
    __init__ arts = Ok self
    ∧ artifacts self !! "openshift" = Some final
    ∧ final = filter (λ x, ¬ created_by_dc x) (map scrub o)
    ∧ final = map scrub (filter (λ x, ¬ created_by_dc x) o)
    ∧ (∀ x, created_by_dc x = true ↔ names_deployment_config x)
    ∧ Forall (λ x, ¬ names_deployment_config x) final
    ∧ sublist final (map scrub o).
Proof.
  intros Hk Ho. eexists _, _. split; [by apply (init_ok _ k o)|].
  simpl. split; [apply lookup_insert_eq|].
  split; [done|]. split; [apply filter_map_scrub|].
  split; [apply created_by_dc_names|]. split.
  - apply Forall_forall. intros x [Hx _]%list_elem_of_filter.
    rewrite <-created_by_dc_names. intros Hc. apply Hx. by rewrite Hc.
  - apply sublist_filter.
Qed.

(** C7.  For every artifact collection that has both provider keys, after
    construction every ImageStream of the openshift profile has an empty
    annotations map (the key is gone, or holds the empty dictionary it held
    before), the artifacts of the other kinds that remain are the input
    ones, unchanged, and the kubernetes profile is unchanged. *)
Theorem C7_imagestream_annotations_cleared
    (arts : gmap string (list Artifact)) (k o : list Artifact) :
  arts !! "kubernetes" = Some k → arts !! "openshift" = Some o →
  ∃ self final,
    __init__ arts = Ok self
    ∧ artifacts self !! "openshift" = Some final
    ∧ Forall (λ x, kind x = "ImageStream" →
                   get_annotations x = ∅
                   ∧ (annotations (metadata x) = None
                      ∨ annotations (metadata x) = Some ∅)) final
    ∧ Forall2 (λ x y, kind y = kind x ∧ (kind x ≠ "ImageStream" → y = x))
              (filter (λ x, ¬ created_by_dc x) o) final
    ∧ artifacts self !! "kubernetes" = Some k.
Proof.
  intros Hk Ho. eexists _, _. split; [by apply (init_ok _ k o)|].
  simpl. split; [apply lookup_insert_eq|]. split; [|split].
  - apply Forall_forall. intros x [_ Hx]%list_elem_of_filter.
    apply list_elem_of_fmap in Hx as (y & -> & _). rewrite scrub_kind.
    intros Hy. split; [by apply scrub_imagestream|by apply scrub_imagestream_key].
  - rewrite filter_map_scrub. apply Forall2_map_scrub.
  - by rewrite lookup_insert_ne.
Qed.

Lemma is_workload_kinds (a : Artifact) :
  is_workload a = true
  ↔ kind a = "ReplicationController" ∨ kind a = "DeploymentConfig".
Proof.
  unfold is_workload. rewrite bool_decide_eq_true.
  rewrite elem_of_cons, list_elem_of_singleton. done.
Qed.

Lemma filter_workload_kinds (l : list Artifact) :
  filter (λ a, is_workload a) l
  = filter (λ a, kind a = "ReplicationController"
                 ∨ kind a = "DeploymentConfig") l.
Proof.
  apply list_filter_iff. intros a. rewrite <-is_workload_kinds.
  apply Is_true_true.
Qed.

(** C8.  For every artifact collection that has both provider keys, the
    inventory built by the constructor lists the containers of the
    artifacts whose kind is ReplicationController or DeploymentConfig, those
    of the kubernetes profile followed by those of the openshift profile,
    artifact by artifact and container by container: one entry per
    container occurrence, holding that container's image, and none for an
    artifact of another kind. *)
Theorem C8_inventory_in_scan_order
    (arts : gmap string (list Artifact)) (k o : list Artifact) :
  arts !! "kubernetes" = Some k → arts !! "openshift" = Some o →
  ∃ self,
    __init__ arts = Ok self
    ∧ images self
      = flat_map get_image_info
          (filter (λ a, kind a = "ReplicationController"
                        ∨ kind a = "DeploymentConfig") (k ++ o))
    ∧ map original_image (images self)
      = flat_map (λ a, map container_image (containers a))
                 (filter (λ a, kind a = "ReplicationController"
                               ∨ kind a = "DeploymentConfig") (k ++ o))
    ∧ map image (images self) = map original_image (images self)
    ∧ length (images self)
      = sum_list (map (λ a, length (containers a))
                      (filter (λ a, kind a = "ReplicationController"
                                    ∨ kind a = "DeploymentConfig") (k ++ o))).
Proof.
  intros Hk Ho. eexists. split; [by apply (init_ok _ k o)|]. simpl.
  rewrite <-!filter_workload_kinds.
  split; [done|]. split; [|split].
  - rewrite map_flat_map. apply flat_map_ext. intros a.
    apply get_image_info_original.
  - rewrite !map_flat_map. apply flat_map_ext. intros a.
    unfold get_image_info. by rewrite !map_map.
  - rewrite flat_map_length_sum. f_equal. apply map_ext. intros a.
    unfold get_image_info. by rewrite length_map.
Qed.

(** C9 (amended).  For every artifact collection that has both provider
    keys the constructor derives the inventory first, from the artifacts as
    given; its first call then scrubs the ImageStream annotations and its
    second call prunes.  The inventory is not touched by the two calls, so
    each container of a pruned replication controller has its entry; and
    the object built is the one the order inventory, pruning, scrubbing
    would build. *)
Theorem C9_inventory_scrubbing_pruning
    (arts : gmap string (list Artifact)) (k o : list Artifact) :
  arts !! "kubernetes" = Some k → arts !! "openshift" = Some o →
  ∃ s0 s1 s2,
    init_images arts = Ok s0
    ∧ artifacts s0 = arts
    ∧ images s0 = flat_map get_image_info (filter (λ a, is_workload a) (k ++ o))
    ∧ init_first_call arts = Ok s1
    ∧ _remove_imagestream_annotations s0 = Ok s1
    ∧ artifacts s1 !! "openshift" = Some (map scrub o)
    ∧ __init__ arts = Ok s2
    ∧ _remove_openshift_objects s1 = Ok s2
    ∧ artifacts s2 !! "openshift"
      = Some (filter (λ x, ¬ created_by_dc x) (map scrub o))
    ∧ images s1 = images s0 ∧ images s2 = images s0
    ∧ (∀ a c, a ∈ o → created_by_dc a = true → c ∈ containers a →
         (a ∉ filter (λ x, ¬ created_by_dc x) o)
         ∧ (∃ info, info ∈ images s2
                    ∧ original_image info = container_image c))
    ∧ spec_init arts = Ok s2.
Proof.
  intros Hk Ho.
  pose proof (init_first_call_ok _ _ _ Hk Ho) as H1.
  pose proof (init_ok _ _ _ Hk Ho) as H2.
  eexists _, _, _.
  split; [unfold init_images; by rewrite (scan_providers_ok _ _ _ Hk Ho)|].
  split; [done|]. split; [done|]. split; [exact H1|].
  split; [by apply remove_imagestream_annotations_ok|].
  split; [apply lookup_insert_eq|]. split; [exact H2|]. split.
  { rewrite (remove_openshift_objects_ok _ (map scrub o))
      by (simpl; apply lookup_insert_eq).
    unfold set_artifacts. simpl. by rewrite insert_insert_eq. }
  split; [apply lookup_insert_eq|]. split; [done|]. split; [done|]. split.
  - intros a c Ha Hc Hin. split.
    + intros [Hn _]%list_elem_of_filter. apply Hn. by rewrite Hc.
    + exists (mkImageInfo (container_image c) (container_image c)
                          (is_internal (container_image c))).
      split; [|done]. simpl. apply list_elem_of_In, in_flat_map.
      exists a. split.
      * apply list_elem_of_In, list_elem_of_filter. split.
        -- unfold created_by_dc in Hc. apply andb_prop in Hc as [Hc _].
           apply bool_decide_eq_true in Hc. unfold is_workload.
           rewrite Hc. reflexivity.
        -- apply elem_of_app. by right.
      * unfold get_image_info.
        apply (in_map (λ c, mkImageInfo (container_image c) (container_image c)
                                        (is_internal (container_image c)))).
        by apply list_elem_of_In.
  - rewrite (spec_init_ok _ _ _ Hk Ho). by rewrite filter_map_scrub.
Qed.

(** *** The image loops *)

Lemma for_images_fst (body : ImageInfo → ImageInfo * list command)
    (imgs : list ImageInfo) :
  (for_images body imgs).1 = map (λ i, (body i).1) imgs.
Proof.
  induction imgs as [|i imgs IH]; [done|]. simpl.
  destruct (body i) as [i' c]. destruct (for_images body imgs) as [l cs].
  simpl in *. by rewrite IH.
Qed.

Lemma for_images_snd (body : ImageInfo → ImageInfo * list command)
    (imgs : list ImageInfo) :
  (for_images body imgs).2 = flat_map (λ i, (body i).2) imgs.
Proof.
  induction imgs as [|i imgs IH]; [done|]. simpl.
  destruct (body i) as [i' c]. destruct (for_images body imgs) as [l cs].
  simpl in *. by rewrite IH.
Qed.

Lemma pull_images_spec (self : ExportedProject) (registry username password : string)
    (only_internal : bool) :
  pull_images self registry username password only_internal
  = (mkExportedProject (artifacts self)
       (map (λ i, (pull_image registry only_internal i).1) (images self)),
     docker_login registry username password
     :: flat_map (λ i, (pull_image registry only_internal i).2) (images self)).
Proof.
  unfold pull_images.
  rewrite <-for_images_fst, <-for_images_snd.
  by destruct (for_images _ _).
Qed.

Lemma push_images_spec (self : ExportedProject) (registry : string)
    (username password : option string) (only_internal : bool) :
  push_images self registry username password only_internal
  = (mkExportedProject (artifacts self)
       (map (λ i, (push_image registry only_internal i).1) (images self)),
     (if truthy_opt username && truthy_opt password
      then [docker_login registry (default "" username) (default "" password)]
      else [])
     ++ flat_map (λ i, (push_image registry only_internal i).2) (images self)).
Proof.
  unfold push_images.
  rewrite <-for_images_fst, <-for_images_snd.
  by destruct (for_images _ _).
Qed.

Lemma pull_commands_internal (registry : string) (imgs : list ImageInfo) :
  flat_map (λ i, (pull_image registry true i).2) imgs
  = map (λ i, ["docker"; "pull"; replace_registry_host (image i) registry])
        (filter (λ i, internal i) imgs).
Proof.
  induction imgs as [|i imgs IH]; [done|]. simpl. rewrite IH.
  unfold pull_image. destruct (internal i) eqn:Hi; simpl.
  - by rewrite filter_cons_True by (by rewrite Hi).
  - rewrite filter_cons_False; [done|]. rewrite Hi. by intros [].
Qed.

(** C2.  In [pull_images] with [only_internal] true, an entry that is not
    internal is left as it is and the loop body issues no command for it:
    after the login, the commands are one pull per internal entry, of its
    rewritten image.  An internal entry has its image replaced by its host
    substitution whatever [only_internal] is. *)
Theorem C2_pull_skips_external
    (self : ExportedProject) (registry username password : string)
    (i : nat) (info : ImageInfo) :
  images self !! i = Some info →
  (internal info = false →
     images (pull_images self registry username password true).1 !! i = Some info
     ∧ (pull_image registry true info).2 = [])
  ∧ (internal info = true → ∀ only_internal,
       images (pull_images self registry username password only_internal).1 !! i
       = Some (set_image (replace_registry_host (image info) registry) info))
  ∧ (pull_images self registry username password true).2
    = docker_login registry username password
      :: map (λ e, ["docker"; "pull"; replace_registry_host (image e) registry])
             (filter (λ e, internal e) (images self)).
Proof.
  intros Hi. split; [|split].
  - intros Hint. rewrite pull_images_spec. simpl.
    rewrite list_lookup_fmap, Hi. simpl.
    unfold pull_image. by rewrite Hint.
  - intros Hint only_internal. rewrite pull_images_spec. simpl.
    rewrite list_lookup_fmap, Hi. simpl.
    unfold pull_image. by rewrite Hint.
  - rewrite pull_images_spec. simpl. by rewrite pull_commands_internal.
Qed.

(** C3.  In [push_images], for an entry that is not skipped: when the
    host-substituted reference parses with a non-empty digest, the entry's
    image becomes the parsed name, a colon, and the digest without its
    colons, and that is the name the retag command gives to the old image;
    when it parses without a digest and with a tag, the entry's image
    becomes the parsed name, a colon and that tag. *)
Theorem C3_push_digest_as_tag
    (self : ExportedProject) (registry : string)
    (username password : option string) (only_internal : bool)
    (i : nat) (info : ImageInfo)
    (new_name : string) (tag digest : option string) :
  images self !! i = Some info →
  only_internal = false ∨ internal info = true →
  parse_image_name (replace_registry_host (image info) registry)
  = (new_name, tag, digest) →
  (∀ d, digest = Some d → d ≠ "" →
     images (push_images self registry username password only_internal).1 !! i
     = Some (set_image (new_name +:+ ":" +:+ str_remove ":" d) info)
     ∧ ["docker"; "tag"; "-f"; image info;
        new_name +:+ ":" +:+ str_remove ":" d]
       ∈ (push_images self registry username password only_internal).2)
  ∧ (∀ t, truthy_opt digest = false → tag = Some t →
       images (push_images self registry username password only_internal).1 !! i
       = Some (set_image (new_name +:+ ":" +:+ t) info)
       ∧ ["docker"; "tag"; "-f"; image info; new_name +:+ ":" +:+ t]
         ∈ (push_images self registry username password only_internal).2).
Proof.
  intros Hi Hproc Hparse.
  assert (Hskip : only_internal && negb (internal info) = false).
  { destruct Hproc as [-> | ->]; [done|]. by rewrite andb_false_r. }
  assert (Hlog : ∀ c, c ∈ (push_image registry only_internal info).2 →
            c ∈ (push_images self registry username password only_internal).2).
  { intros c Hc. rewrite push_images_spec. simpl. apply elem_of_app. right.
    apply list_elem_of_In, in_flat_map. exists info. split.
    - apply list_elem_of_In. by eapply list_elem_of_lookup_2.
    - by apply list_elem_of_In. }
  rewrite push_images_spec in *. simpl.
  rewrite list_lookup_fmap, Hi. simpl.
  split.
  - intros d -> Hd. revert Hlog. unfold push_image.
    rewrite Hskip, Hparse. simpl.
    unfold truthy. rewrite bool_decide_eq_true_2 by done. simpl.
    intros Hlog. split; [done|]. apply Hlog. apply list_elem_of_here.
  - intros t Hd ->. revert Hlog. unfold push_image.
    rewrite Hskip, Hparse, Hd. simpl.
    intros Hlog. split; [done|]. apply Hlog. apply list_elem_of_here.
Qed.

(** *** The reconciliation scan *)

Lemma rewrite_image_cons (e : ImageInfo) (l : list ImageInfo) (s : string) :
  rewrite_image (e :: l) s
  = rewrite_image l (if decide (s = original_image e) then image e else s).
Proof. reflexivity. Qed.

Lemma rewrite_image_app (l1 l2 : list ImageInfo) (s : string) :
  rewrite_image (l1 ++ l2) s = rewrite_image l2 (rewrite_image l1 s).
Proof. apply foldl_app. Qed.

(** A string that every matching entry maps to itself goes through the
    scan unchanged. *)
Lemma rewrite_image_stable (l : list ImageInfo) (v : string) :
  (∀ e, e ∈ l → original_image e = v → image e = v) →
  rewrite_image l v = v.
Proof.
  induction l as [|e l IH]; intros H; [done|].
  rewrite rewrite_image_cons. destruct (decide (v = original_image e)) as [Hv|Hv].
  - rewrite (H e) by (done || apply list_elem_of_here).
    apply IH. intros e' He'. apply H. by apply list_elem_of_further.
  - apply IH. intros e' He'. apply H. by apply list_elem_of_further.
Qed.

Lemma rewrite_image_no_match (l : list ImageInfo) (s : string) :
  (∀ e, e ∈ l → original_image e ≠ s) → rewrite_image l s = s.
Proof.
  intros H. apply rewrite_image_stable. intros e He Hs. by destruct (H e He).
Qed.

(** The scan returns its argument or the image of some entry. *)
Lemma rewrite_image_result (l : list ImageInfo) (s : string) :
  rewrite_image l s = s ∨ ∃ e, e ∈ l ∧ rewrite_image l s = image e.
Proof.
  revert s. induction l as [|e l IH] using rev_ind; intros s; [by left|].
  rewrite rewrite_image_app. simpl.
  destruct (decide (rewrite_image l s = original_image e)) as [He|He].
  - right. exists e. split; [|done]. apply elem_of_app. right.
    apply list_elem_of_here.
  - destruct (IH s) as [Hs | (e' & He' & Hs)]; [by left|].
    right. exists e'. split; [|done]. apply elem_of_app. by left.
Qed.

Lemma rewrite_image_first_match (l1 l2 : list ImageInfo) (e : ImageInfo) (s : string) :
  (∀ e', e' ∈ l1 → original_image e' ≠ s) →
  original_image e = s →
  (∀ e', e' ∈ l2 → original_image e' = image e → image e' = image e) →
  rewrite_image (l1 ++ e :: l2) s = image e.
Proof.
  intros H1 He H2. rewrite rewrite_image_app.
  rewrite (rewrite_image_no_match l1 s) by done.
  rewrite rewrite_image_cons, decide_True by done.
  by apply rewrite_image_stable.
Qed.

Lemma rewrite_image_same (l : list ImageInfo) (s v : string) :
  (∀ e, e ∈ l → original_image e = s → image e = v) →
  (∀ e, e ∈ l → original_image e = v → image e = v) →
  (∃ e, e ∈ l ∧ original_image e = s) →
  rewrite_image l s = v.
Proof.
  induction l as [|x l IH]; intros Hs Hv (e & He & Hes).
  - by apply elem_of_nil in He.
  - rewrite rewrite_image_cons.
    destruct (decide (s = original_image x)) as [Hx|Hx].
    + rewrite (Hs x) by (done || apply list_elem_of_here).
      apply rewrite_image_stable. intros e' He'. apply Hv.
      by apply list_elem_of_further.
    + apply IH.
      * intros e' He'. apply Hs. by apply list_elem_of_further.
      * intros e' He'. apply Hv. by apply list_elem_of_further.
      * apply elem_of_cons in He as [-> | He]; [by destruct Hx|]. eauto.
Qed.

Lemma rewrite_image_consistent (l : list ImageInfo) (e : ImageInfo) :
  same_rewrite l → no_collision l → e ∈ l →
  rewrite_image l (original_image e) = image e.
Proof.
  intros Hsame Hcol He. apply rewrite_image_same.
  - intros e' He' Heq. by apply Hsame.
  - intros e' He' Heq. by apply Hcol.
  - eauto.
Qed.

Lemma rewrite_image_idem (l : list ImageInfo) (s : string) :
  no_collision l → rewrite_image l (rewrite_image l s) = rewrite_image l s.
Proof.
  intros Hcol. destruct (rewrite_image_result l s) as [Hs | (e & He & Hs)].
  - by rewrite !Hs.
  - rewrite Hs. apply rewrite_image_stable. intros e' He' Heq.
    by apply Hcol.
Qed.

Lemma set_container_image_id (c : Container) :
  set_container_image (container_image c) c = c.
Proof. by destruct c. Qed.

Lemma update_container_spec (imgs : list ImageInfo) (c : Container) :
  update_container imgs c
  = set_container_image (rewrite_image imgs (container_image c)) c.
Proof.
  unfold update_container, rewrite_image. revert c.
  induction imgs as [|e imgs IH]; intros c; simpl.
  - by rewrite set_container_image_id.
  - rewrite IH. by destruct (decide (container_image c = original_image e)).
Qed.

Lemma update_container_idem (imgs : list ImageInfo) (c : Container) :
  no_collision imgs →
  update_container imgs (update_container imgs c) = update_container imgs c.
Proof.
  intros H. rewrite !update_container_spec. simpl.
  by rewrite rewrite_image_idem.
Qed.

Lemma update_artifact_workload (imgs : list ImageInfo) (a : Artifact) :
  is_workload (update_artifact imgs a) = is_workload a.
Proof. unfold update_artifact. by destruct (is_workload a) eqn:Ha. Qed.

Lemma update_artifact_idem (imgs : list ImageInfo) (a : Artifact) :
  no_collision imgs →
  update_artifact imgs (update_artifact imgs a) = update_artifact imgs a.
Proof.
  intros H. unfold update_artifact at 1. rewrite update_artifact_workload.
  unfold update_artifact. destruct (is_workload a) eqn:Ha; [|done].
  unfold set_containers. simpl. f_equal.
  rewrite map_map. apply map_ext. intros c. by apply update_container_idem.
Qed.

Lemma update_ok (self : ExportedProject) (k o : list Artifact) :
  artifacts self !! "kubernetes" = Some k →
  artifacts self !! "openshift" = Some o →
  update_artifacts_images self
  = Ok (mkExportedProject
          (<["openshift" := map (update_artifact (images self)) o]>
             (<["kubernetes" := map (update_artifact (images self)) k]>
                (artifacts self)))
          (images self)).
Proof.
  intros Hk Ho. unfold update_artifacts_images, update_providers,
    NULECULE_PROVIDERS. simpl.
  rewrite (getitem_Some _ _ _ Hk). simpl.
  rewrite (getitem_Some _ _ o) by (by rewrite lookup_insert_ne).
  done.
Qed.

Lemma update_raises_without_kubernetes (self : ExportedProject) :
  artifacts self !! "kubernetes" = None →
  update_artifacts_images self = Raise (KeyError "kubernetes").
Proof.
  intros Hk. unfold update_artifacts_images, update_providers,
    NULECULE_PROVIDERS, getitem. simpl. by rewrite Hk.
Qed.

Lemma update_raises_without_openshift (self : ExportedProject) (k : list Artifact) :
  artifacts self !! "kubernetes" = Some k →
  artifacts self !! "openshift" = None →
  update_artifacts_images self = Raise (KeyError "openshift").
Proof.
  intros Hk Ho. unfold update_artifacts_images, update_providers,
    NULECULE_PROVIDERS, getitem. simpl. rewrite Hk. simpl.
  by rewrite lookup_insert_ne, Ho.
Qed.

Lemma Forall2_map_intro {A B : Type} (R : A → B → Prop) (f : A → B) (l : list A) :
  (∀ x, R x (f x)) → Forall2 R l (map f l).
Proof. intros H. induction l; simpl; by constructor. Qed.

(** C4 (amended).  For every model that has both provider keys,
    [update_artifacts_images] returns, keeps the inventory, and rewrites
    the artifacts of both providers: an artifact that is not a workload is
    unchanged; in a workload only the containers' image strings can change.
    A container whose image string is no entry's [original_image] is
    unchanged.  Provided no entry's image is the [original_image] of an
    entry holding another image, a container whose image string at the time
    of the scan is the [original_image] of some entry ends up holding the
    image of the first such entry; that is the image of every such entry
    when the entries that share an [original_image] hold the same image. *)
Theorem C4_update_under_consistent_inventory
    (self : ExportedProject) (k o : list Artifact) :
  artifacts self !! "kubernetes" = Some k →
  artifacts self !! "openshift" = Some o →
  ∃ self',
    update_artifacts_images self = Ok self'
    ∧ images self' = images self
    ∧ artifacts self' !! "kubernetes" = Some (map (update_artifact (images self)) k)
    ∧ artifacts self' !! "openshift" = Some (map (update_artifact (images self)) o)
    ∧ ∀ a,
        (is_workload a = false → update_artifact (images self) a = a)
        ∧ (is_workload a = true →
             kind (update_artifact (images self) a) = kind a
             ∧ metadata (update_artifact (images self) a) = metadata a
             ∧ Forall2
                 (λ c c',
                    container_other c' = container_other c
                    ∧ ((∀ e, e ∈ images self →
                          original_image e ≠ container_image c) → c' = c)
                    ∧ (no_collision (images self) →
                       ∀ l1 e l2, images self = l1 ++ e :: l2 →
                         (∀ e', e' ∈ l1 →
                            original_image e' ≠ container_image c) →
                         original_image e = container_image c →
                         container_image c' = image e)
                    ∧ (same_rewrite (images self) → no_collision (images self) →
                       ∀ e, e ∈ images self →
                         original_image e = container_image c →
                         container_image c' = image e))
                 (containers a) (containers (update_artifact (images self) a))).
Proof.
  intros Hk Ho. eexists. split; [by apply (update_ok _ k o)|]. simpl.
  split; [done|]. split; [by rewrite lookup_insert_ne, lookup_insert_eq|].
  split; [apply lookup_insert_eq|].
  intros a. unfold update_artifact. split; intros Ha; rewrite Ha; [done|].
  simpl. split; [done|]. split; [done|].
  apply Forall2_map_intro. intros c. rewrite update_container_spec. simpl.
  split; [done|]. split; [|split].
  - intros Hno. rewrite rewrite_image_no_match by done.
    apply set_container_image_id.
  - intros Hcol l1 e l2 Himgs Hl1 He. rewrite Himgs.
    apply rewrite_image_first_match; [done..|].
    intros e' He' Heq. symmetry in Heq. apply (Hcol e e'); [| |done].
    + rewrite Himgs. apply elem_of_app. right. apply list_elem_of_here.
    + rewrite Himgs. apply elem_of_app. right. by apply list_elem_of_further.
  - intros Hsame Hcol e He Heq. rewrite <-Heq.
    by apply rewrite_image_consistent.
Qed.

(** C5 (amended).  When no entry's image is the [original_image] of an
    entry holding another image, running [update_artifacts_images] on the
    outcome of a first run gives that outcome again. *)
Theorem C5_update_idempotent_without_collision (self : ExportedProject) :
  no_collision (images self) →
  update_artifacts_images self ≫= update_artifacts_images
  = update_artifacts_images self.
Proof.
  intros Hcol.
  destruct (artifacts self !! "kubernetes") as [k|] eqn:Hk;
    [|by rewrite update_raises_without_kubernetes].
  destruct (artifacts self !! "openshift") as [o|] eqn:Ho;
    [|by rewrite (update_raises_without_openshift _ k)].
  rewrite (update_ok _ k o) by done. simpl.
  rewrite (update_ok _ (map (update_artifact (images self)) k)
                       (map (update_artifact (images self)) o)); simpl.
  - f_equal. f_equal.
    rewrite !map_map.
    rewrite (map_ext _ (update_artifact (images self)) (λ a, update_artifact_idem _ a Hcol) k).
    rewrite (map_ext _ (update_artifact (images self)) (λ a, update_artifact_idem _ a Hcol) o).
    apply map_eq. intros p.
    destruct (decide (p = "openshift")) as [->|Hp1];
      [by rewrite !lookup_insert_eq|].
    rewrite !(lookup_insert_ne _ "openshift") by done.
    destruct (decide (p = "kubernetes")) as [->|Hp2];
      [by rewrite !lookup_insert_eq|].
    by repeat (rewrite lookup_insert_ne by done).
  - by rewrite lookup_insert_ne, lookup_insert_eq.
  - apply lookup_insert_eq.
Qed.

(** C10 (amended).  In the scan of one container, the first entry whose
    [original_image] is the container's image string replaces it, and the
    later entries are compared with the replaced string: when none of them
    has that string as [original_image], the container ends up holding the
    image of the first matching entry, whatever the later entries with the
    same [original_image] hold. *)
Theorem C10_first_match_wins
    (imgs l1 l2 : list ImageInfo) (e : ImageInfo) (c : Container) :
  imgs = l1 ++ e :: l2 →
  (∀ e', e' ∈ l1 → original_image e' ≠ container_image c) →
  original_image e = container_image c →
  (∀ e', e' ∈ l2 → original_image e' ≠ image e) →
  update_container imgs c = set_container_image (image e) c.
Proof.
  intros -> H1 He H2. rewrite update_container_spec. f_equal.
  apply rewrite_image_first_match; [done..|].
  intros e' He' Heq. by destruct (H2 e' He').
Qed.

(** *** export_project *)

(** C1.  If the output of [oc export] for one of the providers parses to
    an envelope whose kind is not List, [export_project] raises the
    exception with the message about the kind, and so returns no
    [ExportedProject]. *)
Theorem C1_export_fails_on_non_list
    (self : OpenshiftClient) (provider : string) (rs : list string) :
  provider ∈ NULECULE_PROVIDERS →
  select_resources provider None = Some rs →
  envelope_kind (export_objects self rs) ≠ "List" →
  export_project self = Raise (FormatError not_a_list_msg).
Proof.
  unfold NULECULE_PROVIDERS, export_project.
  intros [-> | [-> | H%elem_of_nil]%elem_of_cons]%elem_of_cons; [| |done].
  - intros [= <-] Hkind. simpl.
    destruct (decide (envelope_kind (export_objects self
      ["persistentVolumeClaim"; "service"; "replicationController"]) = "List"));
      [done|reflexivity].
  - intros [= <-] Hkind. simpl.
    destruct (decide (envelope_kind (export_objects self
      ["persistentVolumeClaim"; "service"; "replicationController"]) = "List"));
      [|reflexivity].
    simpl.
    destruct (decide (envelope_kind (export_objects self
      ["imageStream"; "service"; "persistentVolumeClaim";
       "replicationController"; "deploymentConfig"; "buildConfig"]) = "List"));
      [done|reflexivity].
Qed.

End Properties.

(** ** The results on the example inputs *)

Lemma C1_witness :
  "kubernetes" ∈ NULECULE_PROVIDERS
  ∧ select_resources "kubernetes" None
    = Some ["persistentVolumeClaim"; "service"; "replicationController"]
  ∧ envelope_kind (export_objects (env := pod_env) client_demo
      ["persistentVolumeClaim"; "service"; "replicationController"]) ≠ "List"
  ∧ export_project (env := pod_env) client_demo
    = Raise (FormatError not_a_list_msg).
Proof.
  assert (H1 : "kubernetes" ∈ NULECULE_PROVIDERS) by apply list_elem_of_here.
  assert (H2 : select_resources "kubernetes" None
    = Some ["persistentVolumeClaim"; "service"; "replicationController"])
    by reflexivity.
  assert (H3 : envelope_kind (export_objects (env := pod_env) client_demo
      ["persistentVolumeClaim"; "service"; "replicationController"]) ≠ "List")
    by (vm_compute; discriminate).
  exact (conj H1 (conj H2 (conj H3
           (C1_export_fails_on_non_list (env := pod_env) client_demo
              "kubernetes" _ H1 H2 H3)))).
Defined.

Lemma C2_witness :
  images model_demo !! 0
  = Some (mkImageInfo "docker.io/library/postgres:9" "docker.io/library/postgres:9" false)
  ∧ images (pull_images (env := example_env) model_demo
              "registry.example.com" "developer" "token" true).1 !! 0
    = Some (mkImageInfo "docker.io/library/postgres:9" "docker.io/library/postgres:9" false)
  ∧ (pull_images (env := example_env) model_demo
       "registry.example.com" "developer" "token" true).2
    = [ docker_login "registry.example.com" "developer" "token";
        ["docker"; "pull"; "registry.example.com/demo/web@sha256:abcd1234"];
        ["docker"; "pull"; "registry.example.com/demo/web:v1"] ].
Proof.
  assert (H : images model_demo !! 0
    = Some (mkImageInfo "docker.io/library/postgres:9"
                        "docker.io/library/postgres:9" false)) by reflexivity.
  destruct (C2_pull_skips_external (env := example_env) model_demo
              "registry.example.com" "developer" "token" 0 _ H)
    as (Hext & _ & Hlog).
  exact (conj H (conj (proj1 (Hext eq_refl)) Hlog)).
Defined.

Lemma C3_witness :
  images model_digest !! 0 = Some info_digest
  ∧ internal info_digest = true
  ∧ parse_image_name (Env := example_env)
      (replace_registry_host (Env := example_env) (image info_digest)
         "newregistry.example.com")
    = ("newregistry.example.com/app", None, Some "sha256:abcd1234")
  ∧ images (push_images (env := example_env) model_digest
              "newregistry.example.com" None None true).1 !! 0
    = Some (mkImageInfo "registry.example.com/app@sha256:abcd1234"
                        "newregistry.example.com/app:sha256abcd1234" true)
  ∧ ["docker"; "tag"; "-f"; "registry.example.com/app@sha256:abcd1234";
     "newregistry.example.com/app:sha256abcd1234"]
    ∈ (push_images (env := example_env) model_digest
         "newregistry.example.com" None None true).2.
Proof.
  assert (H1 : images model_digest !! 0 = Some info_digest) by reflexivity.
  assert (H2 : internal info_digest = true) by reflexivity.
  assert (H3 : parse_image_name (Env := example_env)
      (replace_registry_host (Env := example_env) (image info_digest)
         "newregistry.example.com")
    = ("newregistry.example.com/app", None, Some "sha256:abcd1234"))
    by reflexivity.
  destruct (C3_push_digest_as_tag (env := example_env) model_digest
              "newregistry.example.com" None None true 0 info_digest
              _ _ _ H1 (or_intror H2) H3) as [Hd _].
  destruct (Hd "sha256:abcd1234" eq_refl ltac:(discriminate)) as [Ha Hb].
  exact (conj H1 (conj H2 (conj H3 (conj Ha Hb)))).
Defined.

Lemma C4_witness :
  artifacts model_pulled !! "kubernetes" = Some [rc_with img_internal]
  ∧ artifacts model_pulled !! "openshift" = Some []
  ∧ ∃ self',
      update_artifacts_images model_pulled = Ok self'
      ∧ images self' = images model_pulled
      ∧ artifacts self' !! "kubernetes" = Some [rc_with img_registry]
      ∧ artifacts self' !! "openshift" = Some [].
Proof.
  assert (Hk : artifacts model_pulled !! "kubernetes"
               = Some [rc_with img_internal]) by (vm_compute; reflexivity).
  assert (Ho : artifacts model_pulled !! "openshift" = Some [])
    by (vm_compute; reflexivity).
  destruct (C4_update_under_consistent_inventory
              model_pulled _ _ Hk Ho) as (self' & Hup & Himgs & Hk' & Ho' & _).
  exact (conj Hk (conj Ho
           (ex_intro _ self' (conj Hup (conj Himgs (conj Hk' Ho')))))).
Defined.

(** C4, as stated, fails on a chain: the first entry's [original_image] is
    the container's image string when the scan starts, and the container
    ends up holding the second entry's image, not the first one's. *)
Lemma C4_counterexample :
  artifacts model_chain !! "kubernetes" = Some [rc_with img_internal]
  ∧ info_internal_to_registry ∈ images model_chain
  ∧ original_image info_internal_to_registry = img_internal
  ∧ (∃ self',
       update_artifacts_images model_chain = Ok self'
       ∧ artifacts self' !! "kubernetes" = Some [rc_with img_mirror])
  ∧ img_mirror ≠ image info_internal_to_registry.
Proof.
  split; [vm_compute; reflexivity|].
  split; [apply list_elem_of_here|].
  split; [reflexivity|].
  split; [|discriminate].
  eexists. split; [vm_compute; reflexivity|]. vm_compute; reflexivity.
Qed.

Lemma C5_witness :
  no_collision (images model_pulled)
  ∧ update_artifacts_images model_pulled
    ≫= update_artifacts_images
    = update_artifacts_images model_pulled.
Proof.
  assert (H : no_collision (images model_pulled)).
  { intros e e' He He'. apply list_elem_of_singleton in He, He'.
    subst e e'. discriminate. }
  exact (conj H
           (C5_update_idempotent_without_collision
              model_pulled H)).
Defined.

(** C5, as stated, fails when the entries of a chain come in the other
    order: the first run leaves the registry image in the container, and
    the second run replaces it by the mirror image. *)
Lemma C5_counterexample :
  ∃ s1 s2,
    update_artifacts_images model_chain_reversed = Ok s1
    ∧ update_artifacts_images s1 = Ok s2
    ∧ artifacts s1 !! "kubernetes" = Some [rc_with img_registry]
    ∧ artifacts s2 !! "kubernetes" = Some [rc_with img_mirror]
    ∧ update_artifacts_images model_chain_reversed
      ≫= update_artifacts_images
      ≠ update_artifacts_images model_chain_reversed.
Proof.
  eexists _, _. split; [vm_compute; reflexivity|].
  split; [vm_compute; reflexivity|].
  split; [vm_compute; reflexivity|].
  split; [vm_compute; reflexivity|].
  vm_compute. discriminate.
Qed.

Lemma init_prunes_in_order_witness :
  arts_demo !! "kubernetes" = Some [svc_web; rc_plain]
  ∧ arts_demo !! "openshift" = Some [is_annotated; svc_web; rc_generated; dc_web]
  ∧ ∃ self final,
      __init__ (env := example_env) arts_demo = Ok self
      ∧ artifacts self !! "openshift" = Some final
      ∧ final = filter (λ x, ¬ created_by_dc x)
                  (map scrub [is_annotated; svc_web; rc_generated; dc_web])
      ∧ Forall (λ x, ¬ names_deployment_config x) final.
Proof.
  assert (Hk : arts_demo !! "kubernetes" = Some [svc_web; rc_plain])
    by (vm_compute; reflexivity).
  assert (Ho : arts_demo !! "openshift"
               = Some [is_annotated; svc_web; rc_generated; dc_web])
    by (vm_compute; reflexivity).
  destruct (init_prunes_in_order (env := example_env) arts_demo _ _ Hk Ho)
    as (self & final & Hinit & Hfinal & Hf & _ & _ & Hall & _).
  exact (conj Hk (conj Ho
           (ex_intro _ self (ex_intro _ final
              (conj Hinit (conj Hfinal (conj Hf Hall))))))).
Defined.

(** C6 (code defect).  The comment in [_remove_openshift_objects] says
    that the test is whether the back-reference annotation exists; the test
    the code makes is the truth value of the annotation's value.  On a
    replication controller whose back-reference annotation is the empty
    string the two differ: the annotation is there and the constructor
    keeps the replication controller in the openshift artifacts, whereas
    the replication controller whose annotation names a deployment config
    is removed. *)
Lemma C6_empty_backref_kept :
  arts_empty_backref !! "openshift" = Some [rc_empty_backref]
  ∧ carries_backref rc_empty_backref
  ∧ (∃ self,
       __init__ (env := example_env) arts_empty_backref = Ok self
       ∧ artifacts self !! "openshift" = Some [rc_empty_backref])
  ∧ carries_backref rc_generated
  ∧ (∃ self,
       __init__ (env := example_env)
         {[ "kubernetes" := []; "openshift" := [rc_generated] ]} = Ok self
       ∧ artifacts self !! "openshift" = Some []).
Proof.
  split; [vm_compute; reflexivity|]. split.
  - split; [reflexivity|]. exists "". vm_compute; reflexivity.
  - split; [eexists; split; vm_compute; reflexivity|]. split.
    + split; [reflexivity|]. exists "web". vm_compute; reflexivity.
    + eexists. split; vm_compute; reflexivity.
Qed.

Lemma C7_witness :
  arts_demo !! "kubernetes" = Some [svc_web; rc_plain]
  ∧ arts_demo !! "openshift" = Some [is_annotated; svc_web; rc_generated; dc_web]
  ∧ ∃ self final,
      __init__ (env := example_env) arts_demo = Ok self
      ∧ artifacts self !! "openshift" = Some final
      ∧ Forall (λ x, kind x = "ImageStream" →
                     get_annotations x = ∅
                     ∧ (annotations (metadata x) = None
                        ∨ annotations (metadata x) = Some ∅)) final
      ∧ artifacts self !! "kubernetes" = Some [svc_web; rc_plain].
Proof.
  assert (Hk : arts_demo !! "kubernetes" = Some [svc_web; rc_plain])
    by (vm_compute; reflexivity).
  assert (Ho : arts_demo !! "openshift"
               = Some [is_annotated; svc_web; rc_generated; dc_web])
    by (vm_compute; reflexivity).
  destruct (C7_imagestream_annotations_cleared (env := example_env)
              arts_demo _ _ Hk Ho)
    as (self & final & Hinit & Hfinal & Hall & _ & Hkube).
  exact (conj Hk (conj Ho
           (ex_intro _ self (ex_intro _ final
              (conj Hinit (conj Hfinal (conj Hall Hkube))))))).
Defined.

Lemma C8_witness :
  arts_demo !! "kubernetes" = Some [svc_web; rc_plain]
  ∧ arts_demo !! "openshift" = Some [is_annotated; svc_web; rc_generated; dc_web]
  ∧ ∃ self,
      __init__ (env := example_env) arts_demo = Ok self
      ∧ images self = images_demo
      ∧ map original_image (images self)
        = ["docker.io/library/postgres:9"; "docker.io/library/busybox";
           "172.30.1.1:5000/demo/web@sha256:abcd1234";
           "172.30.1.1:5000/demo/web:v1"]
      ∧ length (images self) = 4.
Proof.
  assert (Hk : arts_demo !! "kubernetes" = Some [svc_web; rc_plain])
    by (vm_compute; reflexivity).
  assert (Ho : arts_demo !! "openshift"
               = Some [is_annotated; svc_web; rc_generated; dc_web])
    by (vm_compute; reflexivity).
  destruct (C8_inventory_in_scan_order (env := example_env) arts_demo _ _ Hk Ho)
    as (self & Hinit & Himgs & Horig & _ & Hlen).
  exact (conj Hk (conj Ho
           (ex_intro _ self (conj Hinit (conj Himgs (conj Horig Hlen)))))).
Defined.

Lemma C9_witness :
  arts_demo !! "kubernetes" = Some [svc_web; rc_plain]
  ∧ arts_demo !! "openshift" = Some [is_annotated; svc_web; rc_generated; dc_web]
  ∧ ∃ s1 s2,
      init_first_call (env := example_env) arts_demo = Ok s1
      ∧ artifacts s1 !! "openshift"
        = Some (map scrub [is_annotated; svc_web; rc_generated; dc_web])
      ∧ __init__ (env := example_env) arts_demo = Ok s2
      ∧ _remove_openshift_objects s1 = Ok s2
      ∧ spec_init (env := example_env) arts_demo = Ok s2.
Proof.
  assert (Hk : arts_demo !! "kubernetes" = Some [svc_web; rc_plain])
    by (vm_compute; reflexivity).
  assert (Ho : arts_demo !! "openshift"
               = Some [is_annotated; svc_web; rc_generated; dc_web])
    by (vm_compute; reflexivity).
  destruct (C9_inventory_scrubbing_pruning (env := example_env) arts_demo _ _ Hk Ho)
    as (s0 & s1 & s2 & _ & _ & _ & H1 & _ & H1o & H2 & Hprune & _ & _ & _ & _ & Hspec).
  exact (conj Hk (conj Ho
           (ex_intro _ s1 (ex_intro _ s2
              (conj H1 (conj H1o (conj H2 (conj Hprune Hspec)))))))).
Defined.

(** C9, as stated, fails on the order of the last two derivations: after
    the constructor's first call the image stream has lost its annotations
    and the generated replication controller is still there, which is not
    the state that pruning first would give. *)
Lemma C9_counterexample :
  ∃ s1 s1',
    init_first_call (env := example_env) arts_demo = Ok s1
    ∧ artifacts s1 !! "openshift"
      = Some [del_annotations is_annotated; svc_web; rc_generated; dc_web]
    ∧ spec_first_two (env := example_env) arts_demo = Ok s1'
    ∧ artifacts s1' !! "openshift" = Some [is_annotated; svc_web; dc_web]
    ∧ init_first_call (env := example_env) arts_demo
      ≠ spec_first_two (env := example_env) arts_demo.
Proof.
  eexists _, _. split; [vm_compute; reflexivity|].
  split; [vm_compute; reflexivity|].
  split; [vm_compute; reflexivity|].
  split; [vm_compute; reflexivity|].
  vm_compute. discriminate.
Qed.

Lemma C10_witness :
  images_diverging = [] ++ info_internal_to_registry :: [info_internal_to_mirror]
  ∧ (∀ e', e' ∈ [] → original_image e' ≠ container_image (container_of img_internal))
  ∧ original_image info_internal_to_registry
    = container_image (container_of img_internal)
  ∧ (∀ e', e' ∈ [info_internal_to_mirror] →
       original_image e' ≠ image info_internal_to_registry)
  ∧ update_container images_diverging (container_of img_internal)
    = container_of img_registry.
Proof.
  assert (H0 : images_diverging
               = [] ++ info_internal_to_registry :: [info_internal_to_mirror])
    by reflexivity.
  assert (H1 : ∀ e' : ImageInfo, e' ∈ [] →
            original_image e' ≠ container_image (container_of img_internal)).
  { intros e' He'. by apply elem_of_nil in He'. }
  assert (H2 : original_image info_internal_to_registry
               = container_image (container_of img_internal)) by reflexivity.
  assert (H3 : ∀ e', e' ∈ [info_internal_to_mirror] →
            original_image e' ≠ image info_internal_to_registry).
  { intros e' He'. apply list_elem_of_singleton in He'. subst e'. discriminate. }
  exact (conj H0 (conj H1 (conj H2 (conj H3
           (C10_first_match_wins images_diverging [] [info_internal_to_mirror]
              info_internal_to_registry (container_of img_internal)
              H0 H1 H2 H3))))).
Defined.

(** C10, as stated, fails on two entries with one [original_image] and
    different images: the container ends up holding the image of the first
    one, and the last entry whose [original_image] is the container's
    string holds another image. *)
Lemma C10_counterexample :
  last_match images_diverging img_internal = Some info_internal_to_mirror
  ∧ original_image info_internal_to_registry = img_internal
  ∧ image info_internal_to_registry ≠ image info_internal_to_mirror
  ∧ update_container images_diverging (container_of img_internal)
    = container_of (image info_internal_to_registry)
  ∧ container_image (update_container images_diverging (container_of img_internal))
    ≠ image info_internal_to_mirror.
Proof.
  split; [vm_compute; reflexivity|]. split; [reflexivity|].
  split; [discriminate|]. split; [vm_compute; reflexivity|].
  vm_compute. discriminate.
Qed.

(** ** Further properties of the program *)

Section FurtherProperties.
Context `{env : Env}.

(** *** Outcomes of export_project and of the constructor *)

Lemma getitem_None {V : Type} (d : gmap string V) (k : string) :
  d !! k = None → getitem d k = Raise (KeyError k).
Proof. intros H. unfold getitem. by rewrite H. Qed.

Lemma export_loop_unfold (self : OpenshiftClient) :
  export_loop self NULECULE_PROVIDERS None ∅
  = (arts ← (if decide (envelope_kind (export_objects self
                 ["persistentVolumeClaim"; "service"; "replicationController"])
               = "List")
             then Ok (items (export_objects self
                 ["persistentVolumeClaim"; "service"; "replicationController"]))
             else Raise (FormatError not_a_list_msg));
     arts' ← (if decide (envelope_kind (export_objects self
                 ["imageStream"; "service"; "persistentVolumeClaim";
                  "replicationController"; "deploymentConfig"; "buildConfig"])
               = "List")
              then Ok (items (export_objects self
                 ["imageStream"; "service"; "persistentVolumeClaim";
                  "replicationController"; "deploymentConfig"; "buildConfig"]))
              else Raise (FormatError not_a_list_msg));
     Ok (<["openshift" := arts']> (<["kubernetes" := arts]> ∅))).
Proof. reflexivity. Qed.

(** When both queries answer with a List, [export_project] returns a model:
    its kubernetes artifacts are the items of the first answer as they came,
    its openshift artifacts are the items of the second answer, scrubbed and
    pruned, it has no other provider, and its inventory lists the workloads
    of both answers, those of the pruned replication controllers
    included. *)
Theorem export_project_builds_model (self : OpenshiftClient) (ek eo : Envelope) :
  ek = export_objects self
         ["persistentVolumeClaim"; "service"; "replicationController"] →
  eo = export_objects self
         ["imageStream"; "service"; "persistentVolumeClaim";
          "replicationController"; "deploymentConfig"; "buildConfig"] →
  envelope_kind ek = "List" → envelope_kind eo = "List" →
  ∃ ep,
    export_project self = Ok ep
    ∧ artifacts ep !! "kubernetes" = Some (items ek)
    ∧ artifacts ep !! "openshift"
      = Some (filter (λ x, ¬ created_by_dc x) (map scrub (items eo)))
    ∧ (∀ p, p ≠ "kubernetes" → p ≠ "openshift" → artifacts ep !! p = None)
    ∧ images ep
      = flat_map get_image_info
          (filter (λ a, is_workload a) (items ek ++ items eo)).
Proof.
  intros -> -> Hk Ho. unfold export_project. rewrite export_loop_unfold.
  rewrite !decide_True by done. simpl.
  rewrite (init_ok _ (items (export_objects self
             ["persistentVolumeClaim"; "service"; "replicationController"]))
           (items (export_objects self
             ["imageStream"; "service"; "persistentVolumeClaim";
              "replicationController"; "deploymentConfig"; "buildConfig"]))).
  - eexists. split; [done|]. simpl.
    split; [by rewrite lookup_insert_ne, lookup_insert_ne, lookup_insert_eq|].
    split; [apply lookup_insert_eq|]. split; [|done].
    intros p Hp1 Hp2. by rewrite !lookup_insert_ne, lookup_empty.
  - by rewrite lookup_insert_ne, lookup_insert_eq.
  - apply lookup_insert_eq.
Qed.

(** The constructor reads the two provider keys and nothing else: without
    the kubernetes key it raises KeyError for it, with it and without the
    openshift key it raises KeyError for that one, and with both it
    returns a model whose dictionary differs from the given one at the
    openshift key only. *)
Theorem init_key_errors (arts : gmap string (list Artifact)) :
  (arts !! "kubernetes" = None → __init__ arts = Raise (KeyError "kubernetes"))
  ∧ (is_Some (arts !! "kubernetes") → arts !! "openshift" = None →
       __init__ arts = Raise (KeyError "openshift"))
  ∧ (is_Some (arts !! "kubernetes") → is_Some (arts !! "openshift") →
       ∃ self, __init__ arts = Ok self
               ∧ ∀ p, p ≠ "openshift" → artifacts self !! p = arts !! p).
Proof.
  split; [|split].
  - intros Hk. unfold __init__, init_first_call, init_images, scan_providers,
      NULECULE_PROVIDERS. simpl. by rewrite (getitem_None _ _ Hk).
  - intros [k Hk] Ho. unfold __init__, init_first_call, init_images,
      scan_providers, NULECULE_PROVIDERS. simpl.
    rewrite (getitem_Some _ _ _ Hk). simpl. by rewrite (getitem_None _ _ Ho).
  - intros [k Hk] [o Ho]. rewrite (init_ok _ k o) by done.
    eexists. split; [done|]. intros p Hp. simpl. by rewrite lookup_insert_ne.
Qed.

(** [update_artifacts_images] reads the same two keys: it raises KeyError
    for the first that is missing, and with both it returns a model with
    the same inventory whose dictionary is unchanged at every other key and
    whose two lists keep their lengths and, position by position, the kind,
    the metadata and the number of containers of each document. *)
Theorem update_key_errors_and_shape (self : ExportedProject) :
  (artifacts self !! "kubernetes" = None →
     update_artifacts_images self = Raise (KeyError "kubernetes"))
  ∧ (is_Some (artifacts self !! "kubernetes") →
     artifacts self !! "openshift" = None →
       update_artifacts_images self = Raise (KeyError "openshift"))
  ∧ (∀ k o, artifacts self !! "kubernetes" = Some k →
       artifacts self !! "openshift" = Some o →
       ∃ self' k' o',
         update_artifacts_images self = Ok self'
         ∧ images self' = images self
         ∧ artifacts self' !! "kubernetes" = Some k'
         ∧ artifacts self' !! "openshift" = Some o'
         ∧ (∀ p, p ≠ "kubernetes" → p ≠ "openshift" →
              artifacts self' !! p = artifacts self !! p)
         ∧ Forall2 (λ a a', kind a' = kind a ∧ metadata a' = metadata a
                            ∧ artifact_other a' = artifact_other a
                            ∧ length (containers a') = length (containers a))
                   (k ++ o) (k' ++ o')
         ∧ length k' = length k ∧ length o' = length o).
Proof.
  split; [apply update_raises_without_kubernetes|]. split.
  - intros [k Hk] Ho. by apply (update_raises_without_openshift _ k).
  - intros k o Hk Ho. rewrite (update_ok _ k o) by done.
    eexists _, _, _. split; [done|]. simpl. split; [done|].
    split; [by rewrite lookup_insert_ne, lookup_insert_eq|].
    split; [apply lookup_insert_eq|].
    split; [intros p Hp1 Hp2; by rewrite !lookup_insert_ne|].
    split; [|by rewrite !length_map].
    rewrite <-map_app. apply Forall2_map_intro. intros a.
    unfold update_artifact. destruct (is_workload a); [|done].
    simpl. by rewrite length_map.
Qed.

(** *** Pruning and scrubbing on their own *)

Lemma filter_keep_idem (l : list Artifact) :
  filter (λ x, ¬ created_by_dc x) (filter (λ x, ¬ created_by_dc x) l)
  = filter (λ x, ¬ created_by_dc x) l.
Proof.
  induction l as [|x l IH]; [done|].
  destruct (created_by_dc x) eqn:Hx.
  - rewrite (filter_cons_False _ x); [done|]. rewrite Hx. by intros [].
  - rewrite (filter_cons_True _ x) by (rewrite Hx; by intros []).
    rewrite (filter_cons_True _ x) by (rewrite Hx; by intros []).
    by rewrite IH.
Qed.

Lemma filter_keep_all (l : list Artifact) :
  Forall (λ x, created_by_dc x = false) l →
  filter (λ x, ¬ created_by_dc x) l = l.
Proof.
  induction 1 as [|x l Hx _ IH]; [done|].
  rewrite filter_cons_True by (rewrite Hx; by intros []). by rewrite IH.
Qed.

Lemma sublist_filter_keep (l : list Artifact) :
  sublist (filter (λ x, ¬ created_by_dc x) l) l.
Proof.
  induction l as [|x l IH]; [constructor|].
  destruct (created_by_dc x) eqn:Hx.
  - rewrite filter_cons_False; [by constructor|]. rewrite Hx. by intros [].
  - rewrite filter_cons_True by (rewrite Hx; by intros []). by constructor.
Qed.

Lemma sublist_filter_workload (l1 l2 : list Artifact) :
  sublist l1 l2 →
  sublist (filter (λ a, is_workload a) l1) (filter (λ a, is_workload a) l2).
Proof.
  induction 1 as [|x l1 l2 _ IH|x l1 l2 _ IH]; [constructor| |].
  - destruct (is_workload x) eqn:Hx.
    + rewrite !(filter_cons_True _ x) by (by rewrite Hx). by constructor.
    + rewrite !(filter_cons_False _ x); [done| |]; rewrite Hx; by intros [].
  - destruct (is_workload x) eqn:Hx.
    + rewrite (filter_cons_True _ x) by (by rewrite Hx). by constructor.
    + rewrite (filter_cons_False _ x); [done|]. rewrite Hx. by intros [].
Qed.

Lemma sublist_flat_map {A B : Type} (f : A → list B) (l1 l2 : list A) :
  sublist l1 l2 → sublist (flat_map f l1) (flat_map f l2).
Proof.
  induction 1 as [|x l1 l2 _ IH|x l1 l2 _ IH]; simpl; [constructor| |].
  - by apply sublist_app.
  - by apply sublist_inserts_l.
Qed.

Lemma scrub_idem (obj : Artifact) : scrub (scrub obj) = scrub obj.
Proof.
  destruct (decide (kind obj = "ImageStream")) as [Hk|Hk];
    [|by rewrite !(scrub_other_kind obj) by done].
  destruct (truthy_dict (get_annotations obj)) eqn:Ht.
  - assert (Hs : scrub obj = del_annotations obj).
    { unfold scrub. rewrite decide_True by done. by rewrite Ht. }
    rewrite Hs. unfold scrub. simpl. rewrite decide_True by done.
    unfold get_annotations, truthy_dict. simpl.
    by rewrite bool_decide_eq_false_2 by (intros H; by apply H).
  - assert (Hs : scrub obj = obj).
    { unfold scrub. rewrite decide_True by done. by rewrite Ht. }
    by rewrite !Hs.
Qed.

Lemma scrub_workload (obj : Artifact) : is_workload obj = true → scrub obj = obj.
Proof.
  unfold is_workload. intros H%bool_decide_eq_true.
  apply scrub_other_kind. intros Hk. rewrite Hk in H.
  apply elem_of_cons in H as [H|H]; [discriminate|].
  apply list_elem_of_singleton in H. discriminate.
Qed.

Lemma scrub_is_workload (obj : Artifact) :
  is_workload (scrub obj) = is_workload obj.
Proof. unfold is_workload. by rewrite scrub_kind. Qed.

Lemma filter_workload_map_scrub (l : list Artifact) :
  filter (λ a, is_workload a) (map scrub l) = filter (λ a, is_workload a) l.
Proof.
  induction l as [|x l IH]; [done|]. simpl.
  destruct (is_workload x) eqn:Hx.
  - rewrite (scrub_workload x Hx).
    rewrite !(filter_cons_True _ x) by (by rewrite Hx). by rewrite IH.
  - rewrite !filter_cons_False; [done| |];
      rewrite ?scrub_is_workload, Hx; by intros [].
Qed.

(** [_remove_openshift_objects] on its own.  Without the openshift key it
    raises KeyError.  With it, it returns, whatever equal documents the
    list holds, so [list.remove] always finds its argument: the new list is
    the old one without the replication controllers the test selects, the
    rest in order, and nothing else of the model changes.  A second run
    changes nothing, and a list from which nothing is selected leaves the
    model as it was. *)
Theorem remove_openshift_objects_outcome (self : ExportedProject) :
  (artifacts self !! "openshift" = None →
     _remove_openshift_objects self = Raise (KeyError "openshift"))
  ∧ (∀ o, artifacts self !! "openshift" = Some o →
       ∃ s,
         _remove_openshift_objects self = Ok s
         ∧ artifacts s !! "openshift" = Some (filter (λ x, ¬ created_by_dc x) o)
         ∧ sublist (filter (λ x, ¬ created_by_dc x) o) o
         ∧ images s = images self
         ∧ (∀ p, p ≠ "openshift" → artifacts s !! p = artifacts self !! p)
         ∧ _remove_openshift_objects s = Ok s
         ∧ (Forall (λ x, created_by_dc x = false) o → s = self)).
Proof.
  split.
  - intros Ho. unfold _remove_openshift_objects. by rewrite (getitem_None _ _ Ho).
  - intros o Ho. rewrite (remove_openshift_objects_ok _ o) by done.
    eexists. split; [done|]. simpl.
    split; [apply lookup_insert_eq|]. split; [apply sublist_filter_keep|].
    split; [done|]. split; [intros p Hp; by rewrite lookup_insert_ne|]. split.
    + rewrite (remove_openshift_objects_ok _ (filter (λ x, ¬ created_by_dc x) o))
        by (simpl; apply lookup_insert_eq).
      rewrite filter_keep_idem. unfold set_artifacts. simpl.
      by rewrite insert_insert_eq.
    + intros Hall. rewrite filter_keep_all by done.
      unfold set_artifacts. rewrite insert_id by done. by destruct self.
Qed.

(** Constructing a model from the artifacts of a constructed model changes
    no artifact: scrubbing and pruning have nothing left to do.  The new
    inventory is the old one without the entries of the pruned replication
    controllers, the others in order. *)
Theorem init_on_constructed_artifacts
    (arts : gmap string (list Artifact)) (k o : list Artifact) :
  arts !! "kubernetes" = Some k → arts !! "openshift" = Some o →
  ∃ s s',
    __init__ arts = Ok s
    ∧ __init__ (artifacts s) = Ok s'
    ∧ artifacts s' = artifacts s
    ∧ images s'
      = flat_map get_image_info
          (filter (λ a, is_workload a) (k ++ filter (λ x, ¬ created_by_dc x) o))
    ∧ sublist (images s') (images s).
Proof.
  intros Hk Ho. rewrite (init_ok _ k o) by done.
  eexists _, _. split; [done|]. simpl.
  rewrite (init_ok _ k (filter (λ x, ¬ created_by_dc x) (map scrub o)));
    [|by rewrite lookup_insert_ne|apply lookup_insert_eq].
  assert (Hfix : filter (λ x, ¬ created_by_dc x)
                   (map scrub (filter (λ x, ¬ created_by_dc x) (map scrub o)))
                 = filter (λ x, ¬ created_by_dc x) (map scrub o)).
  { rewrite (filter_map_scrub o), map_map.
    rewrite (map_ext _ scrub scrub_idem).
    by rewrite filter_map_scrub, filter_keep_idem. }
  assert (Himgs : filter (λ a, is_workload a)
                    (k ++ filter (λ x, ¬ created_by_dc x) (map scrub o))
                  = filter (λ a, is_workload a)
                      (k ++ filter (λ x, ¬ created_by_dc x) o)).
  { rewrite !filter_app. f_equal.
    by rewrite filter_map_scrub, filter_workload_map_scrub. }
  split; [done|]. simpl. split; [|split].
  - by rewrite Hfix, insert_insert_eq.
  - by rewrite Himgs.
  - rewrite Himgs. apply sublist_flat_map, sublist_filter_workload.
    apply sublist_app; [done|apply sublist_filter_keep].
Qed.

(** *** What pull_images and push_images keep, and what they issue *)

Lemma pull_image_fst (registry : string) (only_internal : bool) (e : ImageInfo) :
  (pull_image registry only_internal e).1
  = relocate_info (λ b, b) (λ s, replace_registry_host s registry) e.
Proof.
  unfold pull_image, relocate_info. destruct (internal e); simpl; [done|].
  by destruct only_internal.
Qed.

Lemma pull_image_snd (registry : string) (only_internal : bool) (e : ImageInfo) :
  (pull_image registry only_internal e).2
  = if internal e || negb only_internal
    then [["docker"; "pull"; image (pull_image registry only_internal e).1]]
    else [].
Proof.
  unfold pull_image. destruct (internal e); simpl; [done|].
  by destruct only_internal.
Qed.

Lemma push_image_fst (registry : string) (only_internal : bool) (e : ImageInfo) :
  (push_image registry only_internal e).1
  = relocate_info (λ b, negb (only_internal && negb b)) (push_name registry) e.
Proof.
  unfold push_image, relocate_info, push_name.
  destruct (only_internal && negb (internal e)); simpl; [done|].
  by destruct (parse_image_name _) as [[n t] d].
Qed.


Lemma relocate_info_original (sel : bool → bool) (f : string → string) (e : ImageInfo) :
  original_image (relocate_info sel f e) = original_image e.
Proof. unfold relocate_info. by destruct (sel _). Qed.

Lemma relocate_info_internal (sel : bool → bool) (f : string → string) (e : ImageInfo) :
  internal (relocate_info sel f e) = internal e.
Proof. unfold relocate_info. by destruct (sel _). Qed.

Lemma relocate_info_image (sel : bool → bool) (f : string → string) (e : ImageInfo) :
  image (relocate_info sel f e)
  = if sel (internal e) then f (image e) else image e.
Proof. unfold relocate_info. by destruct (sel _). Qed.

Lemma pull_images_fst (self : ExportedProject) (registry username password : string)
    (only_internal : bool) :
  images (pull_images self registry username password only_internal).1
  = map (relocate_info (λ b, b) (λ s, replace_registry_host s registry))
        (images self).
Proof.
  rewrite pull_images_spec. simpl. apply map_ext. intros e.
  apply pull_image_fst.
Qed.

Lemma push_images_fst (self : ExportedProject) (registry : string)
    (username password : option string) (only_internal : bool) :
  images (push_images self registry username password only_internal).1
  = map (relocate_info (λ b, negb (only_internal && negb b)) (push_name registry))
        (images self).
Proof.
  rewrite push_images_spec. simpl. apply map_ext. intros e.
  apply push_image_fst.
Qed.

(** [pull_images] leaves the artifacts alone and rewrites nothing but the
    [image] of internal entries: the inventory keeps its length, every
    entry keeps its [original_image] and its [internal] flag, and an entry
    that is not internal is unchanged whatever [only_internal] is. *)
Theorem pull_images_preserves
    (self : ExportedProject) (registry username password : string)
    (only_internal : bool) :
  artifacts (pull_images self registry username password only_internal).1
  = artifacts self
  ∧ length (images (pull_images self registry username password only_internal).1)
    = length (images self)
  ∧ map original_image
      (images (pull_images self registry username password only_internal).1)
    = map original_image (images self)
  ∧ map internal
      (images (pull_images self registry username password only_internal).1)
    = map internal (images self)
  ∧ (∀ i e, images self !! i = Some e → internal e = false →
       images (pull_images self registry username password only_internal).1 !! i
       = Some e).
Proof.
  split; [by rewrite pull_images_spec|].
  rewrite pull_images_fst.
  split; [by rewrite length_map|]. split; [|split].
  - rewrite map_map. apply map_ext. intros e. apply relocate_info_original.
  - rewrite map_map. apply map_ext. intros e. apply relocate_info_internal.
  - intros i e Hi Hint. rewrite list_lookup_fmap, Hi. simpl.
    unfold relocate_info. by rewrite Hint.
Qed.

(** [push_images] leaves the artifacts alone as well; the inventory keeps
    its length, every entry keeps its [original_image] and its [internal]
    flag, and with [only_internal] true an entry that is not internal is
    unchanged. *)
Theorem push_images_preserves
    (self : ExportedProject) (registry : string)
    (username password : option string) (only_internal : bool) :
  artifacts (push_images self registry username password only_internal).1
  = artifacts self
  ∧ length (images (push_images self registry username password only_internal).1)
    = length (images self)
  ∧ map original_image
      (images (push_images self registry username password only_internal).1)
    = map original_image (images self)
  ∧ map internal
      (images (push_images self registry username password only_internal).1)
    = map internal (images self)
  ∧ (∀ i e, images self !! i = Some e → internal e = false →
       images (push_images self registry username password true).1 !! i
       = Some e).
Proof.
  split; [by rewrite push_images_spec|].
  rewrite !push_images_fst.
  split; [by rewrite length_map|]. split; [|split].
  - rewrite map_map. apply map_ext. intros e. apply relocate_info_original.
  - rewrite map_map. apply map_ext. intros e. apply relocate_info_internal.
  - intros i e Hi Hint. rewrite list_lookup_fmap, Hi. simpl.
    unfold relocate_info. by rewrite Hint.
Qed.

Lemma flat_map_map {A B C : Type} (f : B → list C) (g : A → B) (l : list A) :
  flat_map f (map g l) = flat_map (λ a, f (g a)) l.
Proof. induction l as [|a l IH]; [done|]. simpl. by rewrite IH. Qed.

Lemma flat_map_filter_singleton {A B : Type} (P : A → bool) (g : A → B) (l : list A) :
  flat_map (λ a, if P a then [g a] else []) l = map g (filter (λ a, P a) l).
Proof.
  induction l as [|a l IH]; [done|]. simpl. rewrite IH.
  destruct (P a) eqn:Ha.
  - by rewrite filter_cons_True by (by rewrite Ha).
  - rewrite filter_cons_False; [done|]. rewrite Ha. by intros [].
Qed.

Lemma pull_images_log (self : ExportedProject)
    (registry username password : string) (only_internal : bool) :
  (pull_images self registry username password only_internal).2
  = docker_login registry username password
    :: map (λ e, ["docker"; "pull"; image e])
         (filter (λ e, internal e || negb only_internal)
            (images (pull_images self registry username password only_internal).1)).
Proof.
  rewrite pull_images_fst, pull_images_spec. simpl. f_equal.
  rewrite (flat_map_ext _ _ (pull_image_snd registry only_internal)).
  rewrite <-(flat_map_filter_singleton
               (λ e, internal e || negb only_internal)
               (λ e, ["docker"; "pull"; image e])).
  rewrite flat_map_map. apply flat_map_ext. intros e.
  rewrite relocate_info_internal, pull_image_fst. done.
Qed.



Lemma str_mem_str_remove (c : ascii) (s : string) :
  str_mem c (str_remove c s) = false.
Proof.
  induction s as [|a s IH]; [done|]. simpl.
  destruct (decide (a = c)) as [->|Hc]; [done|]. simpl.
  by rewrite bool_decide_eq_false_2.
Qed.

Lemma str_remove_absent (c : ascii) (s : string) :
  str_mem c s = false → str_remove c s = s.
Proof.
  induction s as [|a s IH]; [done|]. simpl.
  intros [Ha Hs]%orb_false_elim. apply bool_decide_eq_false in Ha.
  rewrite decide_False by done. by rewrite IH.
Qed.

(** A digest used as a tag holds no colon.  For an entry [push_images] does
    not skip whose host-substituted reference parses with a non-empty
    digest, the image the entry ends with is the parsed name, a colon, and a
    tag in which no colon occurs; the tag is the digest itself when the
    digest has no colon. *)
Theorem push_digest_tag_has_no_colon
    (registry : string) (only_internal : bool) (info : ImageInfo)
    (new_name d : string) (tag : option string) :
  only_internal = false ∨ internal info = true →
  parse_image_name (replace_registry_host (image info) registry)
  = (new_name, tag, Some d) →
  d ≠ "" →
  ∃ t,
    image (push_image registry only_internal info).1 = new_name +:+ ":" +:+ t
    ∧ str_mem ":" t = false
    ∧ (str_mem ":" d = false → t = d).
Proof.
  intros Hproc Hparse Hd. exists (str_remove ":" d).
  split; [|split].
  - unfold push_image.
    replace (only_internal && negb (internal info)) with false
      by (destruct Hproc as [-> | ->]; [done|by rewrite andb_false_r]).
    rewrite Hparse. simpl. unfold truthy.
    by rewrite bool_decide_eq_true_2.
  - apply str_mem_str_remove.
  - apply str_remove_absent.
Qed.

(** *** The inventory invariant *)

Lemma fresh_coherent (is_int : string → bool) (imgs : list ImageInfo) :
  fresh is_int imgs → coherent imgs.
Proof.
  intros H e e' He He' Heq.
  destruct (H e He) as [-> ->]. destruct (H e' He') as [-> ->].
  by rewrite Heq.
Qed.

Lemma coherent_relocate (sel : bool → bool) (f : string → string)
    (imgs : list ImageInfo) :
  coherent imgs → coherent (map (relocate_info sel f) imgs).
Proof.
  intros H e e' He He'.
  apply list_elem_of_fmap in He as (e0 & -> & He0).
  apply list_elem_of_fmap in He' as (e0' & -> & He0').
  rewrite !relocate_info_original, !relocate_info_internal, !relocate_info_image.
  intros Heq. destruct (H e0 e0' He0 He0' Heq) as [-> ->]. done.
Qed.

Lemma coherent_same_rewrite (imgs : list ImageInfo) :
  coherent imgs → same_rewrite imgs.
Proof. intros H e e' He He' Heq. by destruct (H e e' He He' Heq). Qed.

Lemma no_collision_relocate (sel : bool → bool)
    (f : string → string) (imgs : list ImageInfo) :
  (∀ e, e ∈ imgs → image e = original_image e) →
  coherent imgs →
  (∀ e, e ∈ imgs → sel (internal e) = true →
     f (f (original_image e)) = f (original_image e)) →
  no_collision (map (relocate_info sel f) imgs).
Proof.
  intros Hfresh Hcoh Hidem e e' He He'.
  apply list_elem_of_fmap in He as (e0 & -> & He0).
  apply list_elem_of_fmap in He' as (e0' & -> & He0').
  rewrite relocate_info_original, !relocate_info_image.
  rewrite (Hfresh e0 He0), (Hfresh e0' He0').
  destruct (sel (internal e0)) eqn:Hsel.
  - intros Heq. rewrite <-Heq.
    destruct (sel (internal e0')); [by apply Hidem|done].
  - intros Heq. destruct (Hcoh e0 e0' He0 He0' Heq) as [_ <-].
    by rewrite Hsel.
Qed.

Lemma fresh_unrewritten (is_int : string → bool) (imgs : list ImageInfo) :
  fresh is_int imgs → ∀ e, e ∈ imgs → image e = original_image e.
Proof. intros H e He. by destruct (H e He). Qed.

Lemma fresh_get_image_info (l : list Artifact) :
  fresh is_internal (flat_map get_image_info l).
Proof.
  intros e He. apply list_elem_of_In, in_flat_map in He as (a & _ & He).
  unfold get_image_info in He. apply in_map_iff in He as (c & <- & _). done.
Qed.

Lemma container_has_entry (l : list Artifact) (a : Artifact) (c : Container) :
  a ∈ l → is_workload a = true → c ∈ containers a →
  ∃ e, e ∈ flat_map get_image_info (filter (λ a, is_workload a) l)
       ∧ original_image e = container_image c
       ∧ internal e = is_internal (container_image c).
Proof.
  intros Ha Hw Hc.
  exists (mkImageInfo (container_image c) (container_image c)
                      (is_internal (container_image c))).
  split; [|done]. apply list_elem_of_In, in_flat_map. exists a. split.
  - apply list_elem_of_In, list_elem_of_filter. split; [by rewrite Hw|done].
  - unfold get_image_info.
    apply (in_map (λ c, mkImageInfo (container_image c) (container_image c)
                                    (is_internal (container_image c)))).
    by apply list_elem_of_In.
Qed.

Lemma entry_in_workload_images (l : list Artifact) (e : ImageInfo) :
  e ∈ flat_map get_image_info (filter (λ a, is_workload a) l) →
  original_image e ∈ workload_images l.
Proof.
  intros He. apply list_elem_of_In, in_flat_map in He as (a & Ha & He).
  unfold get_image_info in He. apply in_map_iff in He as (c & <- & Hc). simpl.
  apply list_elem_of_In, in_flat_map. exists a. split; [done|].
  by apply in_map.
Qed.

(** The constructor leaves an inventory in which no entry is rewritten yet
    and [internal] is what the registry predicate says of the
    [original_image]; entries that share an [original_image] therefore
    agree on [image] and [internal]. *)
Theorem init_inventory_is_fresh
    (arts : gmap string (list Artifact)) (k o : list Artifact) :
  arts !! "kubernetes" = Some k → arts !! "openshift" = Some o →
  ∃ self,
    __init__ arts = Ok self
    ∧ fresh is_internal (images self)
    ∧ coherent (images self).
Proof.
  intros Hk Ho. rewrite (init_ok _ k o) by done. eexists. split; [done|].
  simpl. split; [apply fresh_get_image_info|].
  eapply fresh_coherent, fresh_get_image_info.
Qed.

(** [pull_images] and [push_images] keep that agreement: in an inventory
    where the entries that share an [original_image] agree on [image] and
    [internal], they still do after either operation, whatever its
    arguments; so entries with one [original_image] never hold different
    images in a model built by the constructor and taken through any
    sequence of pulls and pushes. *)
Theorem pull_push_keep_coherent
    (self : ExportedProject) (registry username password : string)
    (u p : option string) (only_internal : bool) :
  coherent (images self) →
  coherent (images (pull_images self registry username password only_internal).1)
  ∧ coherent (images (push_images self registry u p only_internal).1)
  ∧ same_rewrite (images self).
Proof.
  intros H. rewrite pull_images_fst, push_images_fst.
  split; [by apply coherent_relocate|].
  split; [by apply coherent_relocate|by apply coherent_same_rewrite].
Qed.

(** *** Reconciliation after the constructor, a pull or a push *)

Lemma init_raises_without_kubernetes (arts : gmap string (list Artifact)) :
  arts !! "kubernetes" = None → __init__ arts = Raise (KeyError "kubernetes").
Proof.
  intros Hk. unfold __init__, init_first_call, init_images, scan_providers,
    NULECULE_PROVIDERS. simpl. by rewrite (getitem_None _ _ Hk).
Qed.

Lemma init_raises_without_openshift (arts : gmap string (list Artifact))
    (k : list Artifact) :
  arts !! "kubernetes" = Some k → arts !! "openshift" = None →
  __init__ arts = Raise (KeyError "openshift").
Proof.
  intros Hk Ho. unfold __init__, init_first_call, init_images,
    scan_providers, NULECULE_PROVIDERS. simpl.
  rewrite (getitem_Some _ _ _ Hk). simpl. by rewrite (getitem_None _ _ Ho).
Qed.

Lemma map_id_on {A : Type} (f : A → A) (l : list A) :
  (∀ x, x ∈ l → f x = x) → map f l = l.
Proof.
  induction l as [|x l IH]; intros H; [done|]. simpl.
  rewrite (H x) by apply list_elem_of_here.
  rewrite IH; [done|]. intros y Hy. apply H. by apply list_elem_of_further.
Qed.

Lemma map_ext_on {A B : Type} (f g : A → B) (l : list A) :
  (∀ x, x ∈ l → f x = g x) → map f l = map g l.
Proof.
  induction l as [|x l IH]; intros H; [done|]. simpl.
  rewrite (H x) by apply list_elem_of_here.
  rewrite IH; [done|]. intros y Hy. apply H. by apply list_elem_of_further.
Qed.

Lemma update_id (self : ExportedProject) (k o : list Artifact) :
  artifacts self !! "kubernetes" = Some k →
  artifacts self !! "openshift" = Some o →
  map (update_artifact (images self)) k = k →
  map (update_artifact (images self)) o = o →
  update_artifacts_images self = Ok self.
Proof.
  intros Hk Ho Hk' Ho'. rewrite (update_ok _ k o) by done.
  rewrite Hk', Ho'. rewrite (insert_id _ "kubernetes") by done.
  rewrite insert_id by done. by destruct self.
Qed.

Lemma update_artifact_unrewritten (imgs : list ImageInfo) (a : Artifact) :
  (∀ e, e ∈ imgs → image e = original_image e) → update_artifact imgs a = a.
Proof.
  intros H. unfold update_artifact. destruct (is_workload a); [|done].
  rewrite map_id_on; [by destruct a|]. intros c _.
  rewrite update_container_spec, rewrite_image_stable;
    [apply set_container_image_id|].
  intros e He Heq. by rewrite (H e He).
Qed.

(** With an inventory in which no entry is rewritten,
    [update_artifacts_images] returns the model it was given: before any
    pull or push there is nothing to reconcile. *)
Theorem update_without_rewrite_is_noop (self : ExportedProject) (k o : list Artifact) :
  artifacts self !! "kubernetes" = Some k →
  artifacts self !! "openshift" = Some o →
  (∀ e, e ∈ images self → image e = original_image e) →
  update_artifacts_images self = Ok self.
Proof.
  intros Hk Ho H. apply (update_id _ k o); [done..| |];
    apply map_id_on; intros a _; by apply update_artifact_unrewritten.
Qed.

(** Calling [update_artifacts_images] right after the constructor changes
    nothing, for every artifact collection: the two in sequence give what
    the constructor gives, the KeyError of a missing provider included. *)
Theorem init_then_update_is_init (arts : gmap string (list Artifact)) :
  __init__ arts ≫= update_artifacts_images = __init__ arts.
Proof.
  destruct (arts !! "kubernetes") as [k|] eqn:Hk;
    [|by rewrite init_raises_without_kubernetes].
  destruct (arts !! "openshift") as [o|] eqn:Ho;
    [|by rewrite (init_raises_without_openshift _ k)].
  rewrite (init_ok _ k o) by done. simpl.
  apply (update_id _ k (filter (λ x, ¬ created_by_dc x) (map scrub o))); simpl.
  - by rewrite lookup_insert_ne.
  - apply lookup_insert_eq.
  - apply map_id_on. intros a _. apply update_artifact_unrewritten.
    intros e He. by destruct (fresh_get_image_info _ e He).
  - apply map_id_on. intros a _. apply update_artifact_unrewritten.
    intros e He. by destruct (fresh_get_image_info _ e He).
Qed.

Lemma reconcile_relocated (sel : bool → bool) (f : string → string)
    (l : list Artifact) (a : Artifact) :
  (∀ s, s ∈ workload_images l → sel (is_internal s) = true → f (f s) = f s) →
  (is_workload a = true → a ∈ l) →
  update_artifact
    (map (relocate_info sel f)
         (flat_map get_image_info (filter (λ a, is_workload a) l))) a
  = relocate_artifact (λ s, sel (is_internal s)) f a.
Proof.
  intros Hidem Ha. unfold update_artifact, relocate_artifact.
  destruct (is_workload a) eqn:Hw; [|done]. f_equal.
  apply map_ext_on. intros c Hc.
  destruct (container_has_entry l a c (Ha eq_refl) Hw Hc) as (e & He & Ho & Hi).
  rewrite update_container_spec. rewrite <-Ho.
  rewrite <-(relocate_info_original sel f e).
  rewrite rewrite_image_consistent.
  - rewrite relocate_info_image. unfold relocate_container.
    destruct (fresh_get_image_info _ e He) as [Himg _].
    rewrite Himg, Hi, Ho. destruct (sel _); [done|].
    apply set_container_image_id.
  - eapply coherent_same_rewrite, coherent_relocate, fresh_coherent,
      fresh_get_image_info.
  - eapply no_collision_relocate.
    + eapply fresh_unrewritten, fresh_get_image_info.
    + eapply fresh_coherent, fresh_get_image_info.
    + intros e' He' Hsel. apply Hidem; [by apply entry_in_workload_images|].
      by destruct (fresh_get_image_info _ e' He') as [_ <-].
  - by apply list_elem_of_fmap_2.
Qed.

Lemma update_after_relocation (sel : bool → bool) (f : string → string)
    (arts : gmap string (list Artifact)) (k o : list Artifact)
    (s1 : ExportedProject) :
  arts !! "kubernetes" = Some k → arts !! "openshift" = Some o →
  (∀ s, s ∈ workload_images (k ++ o) → sel (is_internal s) = true →
     f (f s) = f s) →
  artifacts s1
  = <["openshift" := filter (λ x, ¬ created_by_dc x) (map scrub o)]> arts →
  images s1
  = map (relocate_info sel f)
        (flat_map get_image_info (filter (λ a, is_workload a) (k ++ o))) →
  ∃ s',
    update_artifacts_images s1 = Ok s'
    ∧ artifacts s' !! "kubernetes"
      = Some (map (relocate_artifact (λ s, sel (is_internal s)) f) k)
    ∧ artifacts s' !! "openshift"
      = Some (map (relocate_artifact (λ s, sel (is_internal s)) f)
                  (filter (λ x, ¬ created_by_dc x) (map scrub o)))
    ∧ images s' = images s1
    ∧ no_collision (images s1)
    ∧ update_artifacts_images s' = Ok s'.
Proof.
  intros Hk Ho Hidem Harts Himgs.
  assert (Hk1 : artifacts s1 !! "kubernetes" = Some k)
    by (by rewrite Harts, lookup_insert_ne).
  assert (Ho1 : artifacts s1 !! "openshift"
                = Some (filter (λ x, ¬ created_by_dc x) (map scrub o)))
    by (rewrite Harts; apply lookup_insert_eq).
  assert (Hcol : no_collision (images s1)).
  { rewrite Himgs. eapply no_collision_relocate.
    - eapply fresh_unrewritten, fresh_get_image_info.
    - eapply fresh_coherent, fresh_get_image_info.
    - intros e He Hsel. apply Hidem; [by apply entry_in_workload_images|].
      by destruct (fresh_get_image_info _ e He) as [_ <-]. }
  rewrite (update_ok _ _ _ Hk1 Ho1). eexists. split; [done|]. simpl.
  split; [|split; [|split; [done|split; [done|]]]].
  - rewrite lookup_insert_ne, lookup_insert_eq by done. f_equal.
    rewrite Himgs. apply map_ext_on. intros a Ha.
    apply reconcile_relocated; [done|]. intros _. apply elem_of_app. by left.
  - rewrite lookup_insert_eq. f_equal.
    rewrite Himgs. apply map_ext_on. intros a Ha.
    apply reconcile_relocated; [done|]. intros Hw.
    apply list_elem_of_filter in Ha as [_ Ha].
    apply list_elem_of_fmap in Ha as (x & -> & Hx).
    rewrite scrub_is_workload in Hw. rewrite (scrub_workload x Hw).
    apply elem_of_app. by right.
  - eapply update_id; simpl.
    + by rewrite lookup_insert_ne, lookup_insert_eq.
    + apply lookup_insert_eq.
    + rewrite map_map. apply map_ext. intros a. by apply update_artifact_idem.
    + rewrite map_map. apply map_ext. intros a. by apply update_artifact_idem.
Qed.

(** Constructor, [pull_images], [update_artifacts_images].  Provided host
    substitution to the registry, applied to an already substituted
    internal image of the collection, gives it back, the three in sequence
    return a model in which every container of every workload holds the
    host substitution of its image when that image is internal and its
    image as it was otherwise, nothing else having changed since the
    constructor; and a second [update_artifacts_images] changes nothing. *)
Theorem pull_then_update_relocates
    (arts : gmap string (list Artifact)) (k o : list Artifact)
    (registry username password : string) (only_internal : bool) :
  arts !! "kubernetes" = Some k → arts !! "openshift" = Some o →
  (∀ s, s ∈ workload_images (k ++ o) → is_internal s = true →
     replace_registry_host (replace_registry_host s registry) registry
     = replace_registry_host s registry) →
  ∃ s s',
    __init__ arts = Ok s
    ∧ update_artifacts_images
        (pull_images s registry username password only_internal).1 = Ok s'
    ∧ artifacts s' !! "kubernetes"
      = Some (map (relocate_artifact is_internal
                     (λ x, replace_registry_host x registry)) k)
    ∧ artifacts s' !! "openshift"
      = Some (map (relocate_artifact is_internal
                     (λ x, replace_registry_host x registry))
                  (filter (λ x, ¬ created_by_dc x) (map scrub o)))
    ∧ update_artifacts_images s' = Ok s'.
Proof.
  intros Hk Ho Hidem. rewrite (init_ok _ k o) by done.
  eexists. 
  destruct (update_after_relocation (λ b, b)
              (λ x, replace_registry_host x registry) arts k o
              (pull_images
                 (mkExportedProject
                    (<["openshift" := filter (λ x, ¬ created_by_dc x)
                                        (map scrub o)]> arts)
                    (flat_map get_image_info
                       (filter (λ a, is_workload a) (k ++ o))))
                 registry username password only_internal).1
              Hk Ho Hidem)
    as (s' & Hup & Hk' & Ho' & _ & _ & Hfix).
  - by rewrite pull_images_spec.
  - by rewrite pull_images_fst.
  - exists s'. split; [done|]. by rewrite Hup.
Qed.

(** Constructor, [push_images], [update_artifacts_images].  Provided the
    name under which an image of the collection is pushed is pushed under
    itself, the three in sequence return a model in which every container
    of every workload holds the name under which its image was pushed, or
    its image as it was when [only_internal] is true and the image is not
    internal; and a second [update_artifacts_images] changes nothing. *)
Theorem push_then_update_relocates
    (arts : gmap string (list Artifact)) (k o : list Artifact)
    (registry : string) (username password : option string)
    (only_internal : bool) :
  arts !! "kubernetes" = Some k → arts !! "openshift" = Some o →
  (∀ s, s ∈ workload_images (k ++ o) →
     negb (only_internal && negb (is_internal s)) = true →
     push_name registry (push_name registry s) = push_name registry s) →
  ∃ s s',
    __init__ arts = Ok s
    ∧ update_artifacts_images
        (push_images s registry username password only_internal).1 = Ok s'
    ∧ artifacts s' !! "kubernetes"
      = Some (map (relocate_artifact
                     (λ x, negb (only_internal && negb (is_internal x)))
                     (push_name registry)) k)
    ∧ artifacts s' !! "openshift"
      = Some (map (relocate_artifact
                     (λ x, negb (only_internal && negb (is_internal x)))
                     (push_name registry))
                  (filter (λ x, ¬ created_by_dc x) (map scrub o)))
    ∧ update_artifacts_images s' = Ok s'.
Proof.
  intros Hk Ho Hidem. rewrite (init_ok _ k o) by done.
  eexists.
  destruct (update_after_relocation (λ b, negb (only_internal && negb b))
              (push_name registry) arts k o
              (push_images
                 (mkExportedProject
                    (<["openshift" := filter (λ x, ¬ created_by_dc x)
                                        (map scrub o)]> arts)
                    (flat_map get_image_info
                       (filter (λ a, is_workload a) (k ++ o))))
                 registry username password only_internal).1
              Hk Ho Hidem)
    as (s' & Hup & Hk' & Ho' & _ & _ & Hfix).
  - by rewrite push_images_spec.
  - by rewrite push_images_fst.
  - exists s'. split; [done|]. by rewrite Hup.
Qed.

Lemma reconcile_unrewritten (sel : bool → bool) (f : string → string)
    (imgs : list ImageInfo) (c : Container) (e : ImageInfo) :
  (∀ e, e ∈ imgs → image e = original_image e) →
  coherent imgs →
  (∀ e, e ∈ imgs → sel (internal e) = true →
     f (f (original_image e)) = f (original_image e)) →
  e ∈ imgs → original_image e = container_image c →
  update_container (map (relocate_info sel f) imgs) c
  = set_container_image
      (if sel (internal e) then f (container_image c) else container_image c) c.
Proof.
  intros Hfresh Hcoh Hidem He Heq. rewrite update_container_spec. f_equal.
  rewrite <-Heq, <-(relocate_info_original sel f e).
  rewrite rewrite_image_consistent.
  - by rewrite relocate_info_image, relocate_info_original, (Hfresh e He).
  - by apply coherent_same_rewrite, coherent_relocate.
  - by apply no_collision_relocate.
  - by apply list_elem_of_fmap_2.
Qed.

Lemma update_container_no_entry (sel : bool → bool) (f : string → string)
    (imgs : list ImageInfo) (c : Container) :
  (∀ e, e ∈ imgs → original_image e ≠ container_image c) →
  update_container (map (relocate_info sel f) imgs) c = c.
Proof.
  intros H. rewrite update_container_spec, rewrite_image_no_match.
  - apply set_container_image_id.
  - intros e (e0 & -> & He0)%list_elem_of_fmap.
    rewrite relocate_info_original. by apply H.
Qed.

Lemma update_after_relocation_of (sel : bool → bool) (f : string → string)
    (self s1 : ExportedProject) (k o : list Artifact) :
  artifacts self !! "kubernetes" = Some k →
  artifacts self !! "openshift" = Some o →
  (∀ e, e ∈ images self → image e = original_image e) →
  coherent (images self) →
  (∀ e, e ∈ images self → sel (internal e) = true →
     f (f (original_image e)) = f (original_image e)) →
  artifacts s1 = artifacts self →
  images s1 = map (relocate_info sel f) (images self) →
  ∃ s',
    update_artifacts_images s1 = Ok s'
    ∧ images s' = images s1
    ∧ artifacts s' !! "kubernetes" = Some (map (update_artifact (images s1)) k)
    ∧ artifacts s' !! "openshift" = Some (map (update_artifact (images s1)) o)
    ∧ (∀ c,
         (∀ e, e ∈ images self → original_image e = container_image c →
            update_container (images s1) c
            = set_container_image
                (if sel (internal e) then f (container_image c)
                 else container_image c) c)
         ∧ ((∀ e, e ∈ images self → original_image e ≠ container_image c) →
            update_container (images s1) c = c))
    ∧ update_artifacts_images s' = Ok s'.
Proof.
  intros Hk Ho Hfresh Hcoh Hidem Harts Himgs.
  assert (Hcol : no_collision (images s1))
    by (rewrite Himgs; by apply no_collision_relocate).
  rewrite (update_ok s1 k o) by (by rewrite Harts).
  eexists. split; [done|]. simpl. split; [done|].
  split; [by rewrite lookup_insert_ne, lookup_insert_eq|].
  split; [apply lookup_insert_eq|]. split.
  - intros c. rewrite Himgs. split.
    + intros e He Heq. by apply reconcile_unrewritten.
    + apply update_container_no_entry.
  - eapply update_id; simpl.
    + by rewrite lookup_insert_ne, lookup_insert_eq.
    + apply lookup_insert_eq.
    + rewrite map_map. apply map_ext. intros a. by apply update_artifact_idem.
    + rewrite map_map. apply map_ext. intros a. by apply update_artifact_idem.
Qed.

(** [pull_images] then [update_artifacts_images], on any model with both
    provider keys whose inventory is not rewritten yet and whose entries
    with one [original_image] agree.  Provided host substitution to the
    registry gives back the substituted image of every internal entry, the
    update returns, and the scan takes a container whose image is the
    [original_image] of an entry to the host substitution of that image
    when the entry is internal and leaves it as it is otherwise; a container
    with no entry is unchanged, and a second update changes nothing. *)
Theorem pull_then_update_on_unrewritten
    (self : ExportedProject) (k o : list Artifact)
    (registry username password : string) (only_internal : bool) :
  artifacts self !! "kubernetes" = Some k →
  artifacts self !! "openshift" = Some o →
  (∀ e, e ∈ images self → image e = original_image e) →
  coherent (images self) →
  (∀ e, e ∈ images self → internal e = true →
     replace_registry_host
       (replace_registry_host (original_image e) registry) registry
     = replace_registry_host (original_image e) registry) →
  ∃ s1 s',
    s1 = (pull_images self registry username password only_internal).1
    ∧ update_artifacts_images s1 = Ok s'
    ∧ images s' = images s1
    ∧ artifacts s' !! "kubernetes" = Some (map (update_artifact (images s1)) k)
    ∧ artifacts s' !! "openshift" = Some (map (update_artifact (images s1)) o)
    ∧ (∀ c,
         (∀ e, e ∈ images self → original_image e = container_image c →
            update_container (images s1) c
            = set_container_image
                (if internal e
                 then replace_registry_host (container_image c) registry
                 else container_image c) c)
         ∧ ((∀ e, e ∈ images self → original_image e ≠ container_image c) →
            update_container (images s1) c = c))
    ∧ update_artifacts_images s' = Ok s'.
Proof.
  intros Hk Ho Hfresh Hcoh Hidem.
  destruct (update_after_relocation_of (λ b, b)
              (λ x, replace_registry_host x registry) self
              (pull_images self registry username password only_internal).1
              k o Hk Ho Hfresh Hcoh Hidem)
    as (s' & H1 & H2 & H3 & H4 & H5 & H6).
  - by rewrite pull_images_spec.
  - apply pull_images_fst.
  - eexists _, s'.
    exact (conj eq_refl (conj H1 (conj H2 (conj H3 (conj H4 (conj H5 H6)))))).
Qed.

(** [push_images] then [update_artifacts_images], on the same models.
    Provided the name under which the image of every entry that is not
    skipped is pushed is pushed under itself, the update returns, and the
    scan takes a container whose image is the [original_image] of an entry
    to the name under which that image was pushed, or leaves it as it is
    when the entry was skipped; a container with no entry is unchanged, and
    a second update changes nothing. *)
Theorem push_then_update_on_unrewritten
    (self : ExportedProject) (k o : list Artifact)
    (registry : string) (username password : option string)
    (only_internal : bool) :
  artifacts self !! "kubernetes" = Some k →
  artifacts self !! "openshift" = Some o →
  (∀ e, e ∈ images self → image e = original_image e) →
  coherent (images self) →
  (∀ e, e ∈ images self → negb (only_internal && negb (internal e)) = true →
     push_name registry (push_name registry (original_image e))
     = push_name registry (original_image e)) →
  ∃ s1 s',
    s1 = (push_images self registry username password only_internal).1
    ∧ update_artifacts_images s1 = Ok s'
    ∧ images s' = images s1
    ∧ artifacts s' !! "kubernetes" = Some (map (update_artifact (images s1)) k)
    ∧ artifacts s' !! "openshift" = Some (map (update_artifact (images s1)) o)
    ∧ (∀ c,
         (∀ e, e ∈ images self → original_image e = container_image c →
            update_container (images s1) c
            = set_container_image
                (if negb (only_internal && negb (internal e))
                 then push_name registry (container_image c)
                 else container_image c) c)
         ∧ ((∀ e, e ∈ images self → original_image e ≠ container_image c) →
            update_container (images s1) c = c))
    ∧ update_artifacts_images s' = Ok s'.
Proof.
  intros Hk Ho Hfresh Hcoh Hidem.
  destruct (update_after_relocation_of (λ b, negb (only_internal && negb b))
              (push_name registry) self
              (push_images self registry username password only_internal).1
              k o Hk Ho Hfresh Hcoh Hidem)
    as (s' & H1 & H2 & H3 & H4 & H5 & H6).
  - by rewrite push_images_spec.
  - apply push_images_fst.
  - eexists _, s'.
    exact (conj eq_refl (conj H1 (conj H2 (conj H3 (conj H4 (conj H5 H6)))))).
Qed.

(** Pulling twice from one registry.  Provided host substitution to the
    registry gives back the already substituted image of every internal
    entry, a second [pull_images] with the same arguments leaves the
    inventory of the first and issues the same commands again. *)
Theorem pull_images_twice
    (self : ExportedProject) (registry username password : string)
    (only_internal : bool) :
  (∀ e, e ∈ images self → internal e = true →
     replace_registry_host (replace_registry_host (image e) registry) registry
     = replace_registry_host (image e) registry) →
  images (pull_images
            (pull_images self registry username password only_internal).1
            registry username password only_internal).1
  = images (pull_images self registry username password only_internal).1
  ∧ (pull_images
       (pull_images self registry username password only_internal).1
       registry username password only_internal).2
    = (pull_images self registry username password only_internal).2.
Proof.
  intros Hidem.
  assert (Himgs : images (pull_images
            (pull_images self registry username password only_internal).1
            registry username password only_internal).1
          = images (pull_images self registry username password only_internal).1).
  { rewrite !pull_images_fst, map_map. apply map_ext_on. intros e He.
    unfold relocate_info at 2. destruct (internal e) eqn:Hi.
    - unfold relocate_info. simpl. rewrite Hi. unfold set_image. simpl.
      by rewrite Hidem.
    - unfold relocate_info. by rewrite Hi. }
  split; [done|]. by rewrite !pull_images_log, Himgs.
Qed.

(** A reference with neither tag nor digest.  For an entry [push_images]
    does not skip whose host-substituted reference parses with no tag and
    without a digest, or with an empty one, the name is formatted with the
    missing tag: the entry ends with the parsed name followed by ":None",
    and that is the name retagged and pushed. *)
Theorem push_without_tag_formats_none
    (registry : string) (only_internal : bool) (info : ImageInfo)
    (new_name : string) (digest : option string) :
  only_internal = false ∨ internal info = true →
  parse_image_name (replace_registry_host (image info) registry)
  = (new_name, None, digest) →
  truthy_opt digest = false →
  push_image registry only_internal info
  = (set_image (new_name +:+ ":None") info,
     [["docker"; "tag"; "-f"; image info; new_name +:+ ":None"];
      ["docker"; "push"; new_name +:+ ":None"]]).
Proof.
  intros Hproc Hparse Hd. unfold push_image.
  replace (only_internal && negb (internal info)) with false
    by (destruct Hproc as [-> | ->]; [done|by rewrite andb_false_r]).
  by rewrite Hparse, Hd.
Qed.

End FurtherProperties.

Section FindOcProperties.
Context `{os : Os}.

Lemma find_oc_loop_Some (paths : list string) (p : string) :
  find_oc_loop paths = Some p →
  ∃ l1 path l2,
    paths = l1 ++ path :: l2 ∧ p = get_path path ∧ access_x_ok p = true
    ∧ Forall (λ q, access_x_ok (get_path q) = false) l1.
Proof.
  induction paths as [|q paths IH]; [done|]. simpl.
  destruct (access_x_ok (get_path q)) eqn:Hq.
  - intros [= <-]. by exists [], q, paths.
  - intros (l1 & path & l2 & -> & -> & Hp & Hl1)%IH.
    exists (q :: l1), path, l2. repeat split; [done|]. by constructor.
Qed.

Lemma find_oc_loop_None (paths : list string) :
  find_oc_loop paths = None
  ↔ Forall (λ q, access_x_ok (get_path q) = false) paths.
Proof.
  induction paths as [|q paths IH]; simpl; [by split; [constructor|]|].
  destruct (access_x_ok (get_path q)) eqn:Hq.
  - split; [done|]. intros H. apply Forall_cons in H as [H _]. congruence.
  - rewrite IH. split; [by constructor|]. by intros [_ ?]%Forall_cons.
Qed.

(** [_find_oc] returns a path only if it is executable; it returns the
    expansion of /usr/bin/oc whenever that one is executable, the expansion
    of /usr/local/bin/oc when only that one is, and [None] exactly when
    neither is. *)
Theorem find_oc_outcome :
  (∀ p, _find_oc = Some p →
     access_x_ok p = true
     ∧ (p = get_path "/usr/bin/oc"
        ∨ (p = get_path "/usr/local/bin/oc"
           ∧ access_x_ok (get_path "/usr/bin/oc") = false)))
  ∧ (access_x_ok (get_path "/usr/bin/oc") = true →
       _find_oc = Some (get_path "/usr/bin/oc"))
  ∧ (_find_oc = None
     ↔ access_x_ok (get_path "/usr/bin/oc") = false
       ∧ access_x_ok (get_path "/usr/local/bin/oc") = false).
Proof.
  unfold _find_oc, test_paths. split; [|split].
  - intros p (l1 & path & l2 & Heq & -> & Hp & Hl1)%find_oc_loop_Some.
    split; [done|].
    destruct l1 as [|q1 l1]; simplify_eq/=; [by left|].
    destruct l1 as [|q2 l1]; simplify_eq/=.
    + right. split; [done|]. by apply Forall_cons in Hl1 as [? _].
    + by destruct l1.
  - intros H. simpl. by rewrite H.
  - rewrite find_oc_loop_None. split.
    + intros [H1 [H2 _]%Forall_cons]%Forall_cons. done.
    + intros [H1 H2]. by repeat constructor.
Qed.

End FindOcProperties.

(** ** The further results on the example inputs *)

Lemma export_project_builds_model_witness :
  envelope_kind (export_objects (env := list_env) client_demo
    ["persistentVolumeClaim"; "service"; "replicationController"]) = "List"
  ∧ envelope_kind (export_objects (env := list_env) client_demo
      ["imageStream"; "service"; "persistentVolumeClaim";
       "replicationController"; "deploymentConfig"; "buildConfig"]) = "List"
  ∧ ∃ ep,
      export_project (env := list_env) client_demo = Ok ep
      ∧ artifacts ep !! "kubernetes" = Some [rc_generated; dc_web]
      ∧ artifacts ep !! "openshift" = Some [dc_web]
      ∧ length (images ep) = 4.
Proof.
  assert (H1 : envelope_kind (export_objects (env := list_env) client_demo
    ["persistentVolumeClaim"; "service"; "replicationController"]) = "List")
    by reflexivity.
  assert (H2 : envelope_kind (export_objects (env := list_env) client_demo
      ["imageStream"; "service"; "persistentVolumeClaim";
       "replicationController"; "deploymentConfig"; "buildConfig"]) = "List")
    by reflexivity.
  destruct (export_project_builds_model (env := list_env) client_demo _ _
              eq_refl eq_refl H1 H2) as (ep & Hep & Hk & Ho & _ & Himgs).
  refine (conj H1 (conj H2 (ex_intro _ ep (conj Hep (conj Hk (conj Ho _)))))).
  rewrite Himgs. reflexivity.
Defined.

Lemma init_on_constructed_artifacts_witness :
  arts_demo !! "kubernetes" = Some [svc_web; rc_plain]
  ∧ arts_demo !! "openshift" = Some [is_annotated; svc_web; rc_generated; dc_web]
  ∧ ∃ s s',
      __init__ (env := example_env) arts_demo = Ok s
      ∧ __init__ (env := example_env) (artifacts s) = Ok s'
      ∧ artifacts s' = artifacts s
      ∧ sublist (images s') (images s).
Proof.
  assert (Hk : arts_demo !! "kubernetes" = Some [svc_web; rc_plain])
    by (vm_compute; reflexivity).
  assert (Ho : arts_demo !! "openshift"
               = Some [is_annotated; svc_web; rc_generated; dc_web])
    by (vm_compute; reflexivity).
  destruct (init_on_constructed_artifacts (env := example_env) arts_demo _ _ Hk Ho)
    as (s & s' & H1 & H2 & H3 & _ & H4).
  exact (conj Hk (conj Ho
           (ex_intro _ s (ex_intro _ s' (conj H1 (conj H2 (conj H3 H4))))))).
Defined.

Lemma push_digest_tag_has_no_colon_witness :
  internal info_digest = true
  ∧ parse_image_name (Env := example_env)
      (replace_registry_host (Env := example_env) (image info_digest)
         "newregistry.example.com")
    = ("newregistry.example.com/app", None, Some "sha256:abcd1234")
  ∧ "sha256:abcd1234" ≠ ""
  ∧ ∃ t,
      image (push_image (env := example_env) "newregistry.example.com" true
               info_digest).1
      = "newregistry.example.com/app" +:+ ":" +:+ t
      ∧ str_mem ":" t = false.
Proof.
  assert (H1 : internal info_digest = true) by reflexivity.
  assert (H2 : parse_image_name (Env := example_env)
      (replace_registry_host (Env := example_env) (image info_digest)
         "newregistry.example.com")
    = ("newregistry.example.com/app", None, Some "sha256:abcd1234"))
    by reflexivity.
  assert (H3 : "sha256:abcd1234" ≠ "") by discriminate.
  destruct (push_digest_tag_has_no_colon (env := example_env)
              "newregistry.example.com" true info_digest _ _ _
              (or_intror H1) H2 H3) as (t & Ht & Hc & _).
  exact (conj H1 (conj H2 (conj H3 (ex_intro _ t (conj Ht Hc))))).
Defined.

Lemma init_inventory_is_fresh_witness :
  arts_demo !! "kubernetes" = Some [svc_web; rc_plain]
  ∧ arts_demo !! "openshift" = Some [is_annotated; svc_web; rc_generated; dc_web]
  ∧ ∃ self,
      __init__ (env := example_env) arts_demo = Ok self
      ∧ fresh (is_internal (Env := example_env)) (images self)
      ∧ coherent (images self).
Proof.
  assert (Hk : arts_demo !! "kubernetes" = Some [svc_web; rc_plain])
    by (vm_compute; reflexivity).
  assert (Ho : arts_demo !! "openshift"
               = Some [is_annotated; svc_web; rc_generated; dc_web])
    by (vm_compute; reflexivity).
  exact (conj Hk (conj Ho
           (init_inventory_is_fresh (env := example_env) arts_demo _ _ Hk Ho))).
Defined.

Lemma pull_push_keep_coherent_witness :
  images model_shared !! 0 = Some info_web
  ∧ images model_shared !! 1 = Some info_web
  ∧ coherent (images model_shared)
  ∧ coherent (images (pull_images (env := example_env) model_shared
                        "registry.example.com" "developer" "token" true).1)
  ∧ coherent (images (push_images (env := example_env) model_shared
                        "mirror.example.com" None None false).1)
  ∧ same_rewrite (images model_shared)
  ∧ images (pull_images (env := example_env) model_shared
              "registry.example.com" "developer" "token" true).1
    = [mkImageInfo img_internal "registry.example.com/demo/web:v1" true;
       mkImageInfo img_internal "registry.example.com/demo/web:v1" true;
       info_db]
  ∧ images (push_images (env := example_env) model_shared
              "mirror.example.com" None None false).1
    = [mkImageInfo img_internal "mirror.example.com/demo/web:v1" true;
       mkImageInfo img_internal "mirror.example.com/demo/web:v1" true;
       mkImageInfo "docker.io/library/postgres:9"
                   "mirror.example.com/library/postgres:9" false].
Proof.
  assert (H : coherent (images model_shared)).
  { intros e e' He He' Heq. simpl in He, He'.
    repeat (apply elem_of_cons in He as [-> | He]);
      try (by apply elem_of_nil in He);
      repeat (apply elem_of_cons in He' as [-> | He']);
      try (by apply elem_of_nil in He');
      first [done | discriminate]. }
  destruct (pull_push_keep_coherent (env := example_env) model_shared
              "registry.example.com" "developer" "token" None None true H)
    as (Hpull & _ & Hsame).
  destruct (pull_push_keep_coherent (env := example_env) model_shared
              "mirror.example.com" "developer" "token" None None false H)
    as (_ & Hpush & _).
  exact (conj eq_refl (conj eq_refl (conj H (conj Hpull (conj Hpush
           (conj Hsame (conj eq_refl eq_refl))))))).
Defined.

Lemma update_without_rewrite_is_noop_witness :
  artifacts model_demo !! "kubernetes" = Some [svc_web; rc_plain]
  ∧ artifacts model_demo !! "openshift"
    = Some [is_annotated; svc_web; rc_generated; dc_web]
  ∧ (∀ e, e ∈ images model_demo → image e = original_image e)
  ∧ update_artifacts_images model_demo = Ok model_demo.
Proof.
  assert (Hk : artifacts model_demo !! "kubernetes" = Some [svc_web; rc_plain])
    by (vm_compute; reflexivity).
  assert (Ho : artifacts model_demo !! "openshift"
               = Some [is_annotated; svc_web; rc_generated; dc_web])
    by (vm_compute; reflexivity).
  assert (H : ∀ e, e ∈ images model_demo → image e = original_image e).
  { intros e He. simpl in He. unfold images_demo in He.
    repeat (apply elem_of_cons in He as [-> | He]; [reflexivity|]).
    by apply elem_of_nil in He. }
  exact (conj Hk (conj Ho (conj H
           (update_without_rewrite_is_noop model_demo _ _ Hk Ho H)))).
Defined.

Lemma pull_then_update_relocates_witness :
  arts_demo !! "kubernetes" = Some [svc_web; rc_plain]
  ∧ arts_demo !! "openshift" = Some [is_annotated; svc_web; rc_generated; dc_web]
  ∧ ∃ s s',
      __init__ (env := example_env) arts_demo = Ok s
      ∧ update_artifacts_images
          (pull_images (env := example_env) s
             "registry.example.com" "developer" "token" true).1 = Ok s'
      ∧ artifacts s' !! "kubernetes" = Some [svc_web; rc_plain]
      ∧ artifacts s' !! "openshift"
        = Some [del_annotations is_annotated; svc_web;
                mkArtifact "DeploymentConfig" (plain_metadata "web")
                  [container_of "registry.example.com/demo/web:v1"] ∅]
      ∧ update_artifacts_images s' = Ok s'.
Proof.
  assert (Hk : arts_demo !! "kubernetes" = Some [svc_web; rc_plain])
    by (vm_compute; reflexivity).
  assert (Ho : arts_demo !! "openshift"
               = Some [is_annotated; svc_web; rc_generated; dc_web])
    by (vm_compute; reflexivity).
  assert (Hidem : ∀ s,
    s ∈ workload_images ([svc_web; rc_plain]
                         ++ [is_annotated; svc_web; rc_generated; dc_web]) →
    is_internal (Env := example_env) s = true →
    replace_registry_host (Env := example_env)
      (replace_registry_host (Env := example_env) s "registry.example.com")
      "registry.example.com"
    = replace_registry_host (Env := example_env) s "registry.example.com").
  { intros s Hs _. vm_compute in Hs.
    repeat (apply elem_of_cons in Hs as [-> | Hs]; [reflexivity|]).
    by apply elem_of_nil in Hs. }
  destruct (pull_then_update_relocates (env := example_env) arts_demo _ _
              "registry.example.com" "developer" "token" true Hk Ho Hidem)
    as (s & s' & H1 & H2 & H3 & H4 & H5).
  exact (conj Hk (conj Ho
           (ex_intro _ s (ex_intro _ s'
              (conj H1 (conj H2 (conj H3 (conj H4 H5)))))))).
Defined.

Lemma push_then_update_relocates_witness :
  arts_demo !! "kubernetes" = Some [svc_web; rc_plain]
  ∧ arts_demo !! "openshift" = Some [is_annotated; svc_web; rc_generated; dc_web]
  ∧ ∃ s s',
      __init__ (env := example_env) arts_demo = Ok s
      ∧ update_artifacts_images
          (push_images (env := example_env) s
             "registry.example.com" None None false).1 = Ok s'
      ∧ artifacts s' !! "kubernetes"
        = Some [svc_web;
                mkArtifact "ReplicationController" (plain_metadata "db")
                  [container_of "registry.example.com/library/postgres:9";
                   container_of "registry.example.com/library/busybox:None"] ∅]
      ∧ artifacts s' !! "openshift"
        = Some [del_annotations is_annotated; svc_web;
                mkArtifact "DeploymentConfig" (plain_metadata "web")
                  [container_of "registry.example.com/demo/web:v1"] ∅]
      ∧ update_artifacts_images s' = Ok s'.
Proof.
  assert (Hk : arts_demo !! "kubernetes" = Some [svc_web; rc_plain])
    by (vm_compute; reflexivity).
  assert (Ho : arts_demo !! "openshift"
               = Some [is_annotated; svc_web; rc_generated; dc_web])
    by (vm_compute; reflexivity).
  assert (Hidem : ∀ s,
    s ∈ workload_images ([svc_web; rc_plain]
                         ++ [is_annotated; svc_web; rc_generated; dc_web]) →
    negb (false && negb (is_internal (Env := example_env) s)) = true →
    push_name (env := example_env) "registry.example.com"
      (push_name (env := example_env) "registry.example.com" s)
    = push_name (env := example_env) "registry.example.com" s).
  { intros s Hs _. vm_compute in Hs.
    repeat (apply elem_of_cons in Hs as [-> | Hs]; [reflexivity|]).
    by apply elem_of_nil in Hs. }
  destruct (push_then_update_relocates (env := example_env) arts_demo _ _
              "registry.example.com" None None false Hk Ho Hidem)
    as (s & s' & H1 & H2 & H3 & H4 & H5).
  exact (conj Hk (conj Ho
           (ex_intro _ s (ex_intro _ s'
              (conj H1 (conj H2 (conj H3 (conj H4 H5)))))))).
Defined.

Lemma pull_images_twice_witness :
  (∀ e, e ∈ images model_demo → internal e = true →
     replace_registry_host (Env := example_env)
       (replace_registry_host (Env := example_env) (image e)
          "registry.example.com") "registry.example.com"
     = replace_registry_host (Env := example_env) (image e)
         "registry.example.com")
  ∧ images (pull_images (env := example_env)
              (pull_images (env := example_env) model_demo
                 "registry.example.com" "developer" "token" true).1
              "registry.example.com" "developer" "token" true).1
    = images (pull_images (env := example_env) model_demo
                "registry.example.com" "developer" "token" true).1
  ∧ (pull_images (env := example_env)
       (pull_images (env := example_env) model_demo
          "registry.example.com" "developer" "token" true).1
       "registry.example.com" "developer" "token" true).2
    = (pull_images (env := example_env) model_demo
         "registry.example.com" "developer" "token" true).2.
Proof.
  assert (H : ∀ e, e ∈ images model_demo → internal e = true →
     replace_registry_host (Env := example_env)
       (replace_registry_host (Env := example_env) (image e)
          "registry.example.com") "registry.example.com"
     = replace_registry_host (Env := example_env) (image e)
         "registry.example.com").
  { intros e He _. simpl in He. unfold images_demo in He.
    repeat (apply elem_of_cons in He as [-> | He]; [reflexivity|]).
    by apply elem_of_nil in He. }
  exact (conj H (pull_images_twice (env := example_env) model_demo
                   "registry.example.com" "developer" "token" true H)).
Defined.

Lemma push_without_tag_formats_none_witness :
  internal (mkImageInfo "172.30.1.1:5000/demo/web" "172.30.1.1:5000/demo/web" true)
  = true
  ∧ parse_image_name (Env := example_env)
      (replace_registry_host (Env := example_env) "172.30.1.1:5000/demo/web"
         "registry.example.com")
    = ("registry.example.com/demo/web", None, None)
  ∧ push_image (env := example_env) "registry.example.com" true
      (mkImageInfo "172.30.1.1:5000/demo/web" "172.30.1.1:5000/demo/web" true)
    = (mkImageInfo "172.30.1.1:5000/demo/web"
         "registry.example.com/demo/web:None" true,
       [["docker"; "tag"; "-f"; "172.30.1.1:5000/demo/web";
         "registry.example.com/demo/web:None"];
        ["docker"; "push"; "registry.example.com/demo/web:None"]]).
Proof.
  assert (H1 : internal (mkImageInfo "172.30.1.1:5000/demo/web"
                           "172.30.1.1:5000/demo/web" true) = true)
    by reflexivity.
  assert (H2 : parse_image_name (Env := example_env)
      (replace_registry_host (Env := example_env) "172.30.1.1:5000/demo/web"
         "registry.example.com")
    = ("registry.example.com/demo/web", None, None)) by reflexivity.
  exact (conj H1 (conj H2
           (push_without_tag_formats_none (env := example_env)
              "registry.example.com" true
              (mkImageInfo "172.30.1.1:5000/demo/web"
                 "172.30.1.1:5000/demo/web" true)
              _ None (or_intror H1) H2 eq_refl))).
Defined.

Lemma coherent_images_demo : coherent (images model_demo).
Proof.
  intros e e' He He' Heq. simpl in He, He'. unfold images_demo in He, He'.
  repeat (apply elem_of_cons in He as [-> | He]);
    try (by apply elem_of_nil in He);
    repeat (apply elem_of_cons in He' as [-> | He']);
    try (by apply elem_of_nil in He');
    first [done | discriminate].
Defined.

Lemma unrewritten_images_demo :
  ∀ e, e ∈ images model_demo → image e = original_image e.
Proof.
  intros e He. simpl in He. unfold images_demo in He.
  repeat (apply elem_of_cons in He as [-> | He]; [reflexivity|]).
  by apply elem_of_nil in He.
Defined.

Lemma pull_then_update_on_unrewritten_witness :
  artifacts model_demo !! "kubernetes" = Some [svc_web; rc_plain]
  ∧ artifacts model_demo !! "openshift"
    = Some [is_annotated; svc_web; rc_generated; dc_web]
  ∧ (∀ e, e ∈ images model_demo → image e = original_image e)
  ∧ coherent (images model_demo)
  ∧ ∃ s',
      update_artifacts_images
        (pull_images (env := example_env) model_demo
           "registry.example.com" "developer" "token" true).1 = Ok s'
      ∧ artifacts s' !! "kubernetes" = Some [svc_web; rc_plain]
      ∧ artifacts s' !! "openshift"
        = Some [is_annotated; svc_web;
                mkArtifact "ReplicationController"
                  (annotated_metadata "web-1" backref_key "web")
                  [container_of "registry.example.com/demo/web@sha256:abcd1234"] ∅;
                mkArtifact "DeploymentConfig" (plain_metadata "web")
                  [container_of "registry.example.com/demo/web:v1"] ∅]
      ∧ update_artifacts_images s' = Ok s'.
Proof.
  assert (Hk : artifacts model_demo !! "kubernetes" = Some [svc_web; rc_plain])
    by (vm_compute; reflexivity).
  assert (Ho : artifacts model_demo !! "openshift"
               = Some [is_annotated; svc_web; rc_generated; dc_web])
    by (vm_compute; reflexivity).
  assert (Hidem : ∀ e, e ∈ images model_demo → internal e = true →
     replace_registry_host (Env := example_env)
       (replace_registry_host (Env := example_env) (original_image e)
          "registry.example.com") "registry.example.com"
     = replace_registry_host (Env := example_env) (original_image e)
         "registry.example.com").
  { intros e He _. simpl in He. unfold images_demo in He.
    repeat (apply elem_of_cons in He as [-> | He]; [reflexivity|]).
    by apply elem_of_nil in He. }
  destruct (pull_then_update_on_unrewritten (env := example_env) model_demo _ _
              "registry.example.com" "developer" "token" true
              Hk Ho unrewritten_images_demo coherent_images_demo Hidem)
    as (s1 & s' & -> & H1 & _ & H3 & H4 & _ & H6).
  exact (conj Hk (conj Ho (conj unrewritten_images_demo
           (conj coherent_images_demo
              (ex_intro _ s' (conj H1 (conj H3 (conj H4 H6)))))))).
Defined.

Lemma push_then_update_on_unrewritten_witness :
  artifacts model_demo !! "kubernetes" = Some [svc_web; rc_plain]
  ∧ artifacts model_demo !! "openshift"
    = Some [is_annotated; svc_web; rc_generated; dc_web]
  ∧ (∀ e, e ∈ images model_demo → image e = original_image e)
  ∧ coherent (images model_demo)
  ∧ ∃ s',
      update_artifacts_images
        (push_images (env := example_env) model_demo
           "registry.example.com" (Some "developer") (Some "token") true).1
      = Ok s'
      ∧ artifacts s' !! "kubernetes" = Some [svc_web; rc_plain]
      ∧ artifacts s' !! "openshift"
        = Some [is_annotated; svc_web;
                mkArtifact "ReplicationController"
                  (annotated_metadata "web-1" backref_key "web")
                  [container_of "registry.example.com/demo/web:sha256abcd1234"] ∅;
                mkArtifact "DeploymentConfig" (plain_metadata "web")
                  [container_of "registry.example.com/demo/web:v1"] ∅]
      ∧ update_artifacts_images s' = Ok s'.
Proof.
  assert (Hk : artifacts model_demo !! "kubernetes" = Some [svc_web; rc_plain])
    by (vm_compute; reflexivity).
  assert (Ho : artifacts model_demo !! "openshift"
               = Some [is_annotated; svc_web; rc_generated; dc_web])
    by (vm_compute; reflexivity).
  assert (Hidem : ∀ e, e ∈ images model_demo →
     negb (true && negb (internal e)) = true →
     push_name (env := example_env) "registry.example.com"
       (push_name (env := example_env) "registry.example.com" (original_image e))
     = push_name (env := example_env) "registry.example.com" (original_image e)).
  { intros e He _. simpl in He. unfold images_demo in He.
    repeat (apply elem_of_cons in He as [-> | He]; [reflexivity|]).
    by apply elem_of_nil in He. }
  destruct (push_then_update_on_unrewritten (env := example_env) model_demo _ _
              "registry.example.com" (Some "developer") (Some "token") true
              Hk Ho unrewritten_images_demo coherent_images_demo Hidem)
    as (s1 & s' & -> & H1 & _ & H3 & H4 & _ & H6).
  exact (conj Hk (conj Ho (conj unrewritten_images_demo
           (conj coherent_images_demo
              (ex_intro _ s' (conj H1 (conj H3 (conj H4 H6)))))))).
Defined.

Lemma init_key_errors_witness :
  __init__ (env := example_env) ∅ = Raise (KeyError "kubernetes")
  ∧ __init__ (env := example_env) {[ "kubernetes" := [rc_plain] ]}
    = Raise (KeyError "openshift")
  ∧ ∃ self,
      __init__ (env := example_env) arts_demo = Ok self
      ∧ ∀ p, p ≠ "openshift" → artifacts self !! p = arts_demo !! p.
Proof.
  assert (H0 : (∅ : gmap string (list Artifact)) !! "kubernetes" = None)
    by (vm_compute; reflexivity).
  assert (H1 : is_Some (({[ "kubernetes" := [rc_plain] ]}
                          : gmap string (list Artifact)) !! "kubernetes"))
    by (eexists; vm_compute; reflexivity).
  assert (H2 : ({[ "kubernetes" := [rc_plain] ]}
                  : gmap string (list Artifact)) !! "openshift" = None)
    by (vm_compute; reflexivity).
  assert (Hk : is_Some (arts_demo !! "kubernetes"))
    by (eexists; vm_compute; reflexivity).
  assert (Ho : is_Some (arts_demo !! "openshift"))
    by (eexists; vm_compute; reflexivity).
  exact (conj (proj1 (init_key_errors (env := example_env) ∅) H0)
           (conj (proj1 (proj2 (init_key_errors (env := example_env)
                                  {[ "kubernetes" := [rc_plain] ]})) H1 H2)
                 (proj2 (proj2 (init_key_errors (env := example_env) arts_demo))
                    Hk Ho))).
Defined.

Lemma update_key_errors_and_shape_witness :
  update_artifacts_images (mkExportedProject ∅ images_demo)
  = Raise (KeyError "kubernetes")
  ∧ update_artifacts_images
      (mkExportedProject {[ "kubernetes" := [rc_plain] ]} images_demo)
    = Raise (KeyError "openshift")
  ∧ ∃ self' k' o',
      update_artifacts_images model_chain = Ok self'
      ∧ images self' = images model_chain
      ∧ artifacts self' !! "kubernetes" = Some k'
      ∧ artifacts self' !! "openshift" = Some o'
      ∧ length k' = 1 ∧ length o' = 0.
Proof.
  assert (H0 : artifacts (mkExportedProject ∅ images_demo) !! "kubernetes" = None)
    by (vm_compute; reflexivity).
  assert (H1 : is_Some (artifacts (mkExportedProject
                 {[ "kubernetes" := [rc_plain] ]} images_demo) !! "kubernetes"))
    by (eexists; vm_compute; reflexivity).
  assert (H2 : artifacts (mkExportedProject
                 {[ "kubernetes" := [rc_plain] ]} images_demo) !! "openshift"
               = None)
    by (vm_compute; reflexivity).
  assert (Hk : artifacts model_chain !! "kubernetes" = Some [rc_with img_internal])
    by (vm_compute; reflexivity).
  assert (Ho : artifacts model_chain !! "openshift" = Some [])
    by (vm_compute; reflexivity).
  destruct (proj2 (proj2 (update_key_errors_and_shape model_chain)) _ _ Hk Ho)
    as (self' & k' & o' & Hup & Himgs & Hk' & Ho' & _ & _ & Hlk & Hlo).
  exact (conj (proj1 (update_key_errors_and_shape _) H0)
           (conj (proj1 (proj2 (update_key_errors_and_shape _)) H1 H2)
              (ex_intro _ self' (ex_intro _ k' (ex_intro _ o'
                 (conj Hup (conj Himgs (conj Hk' (conj Ho' (conj Hlk Hlo)))))))))).
Defined.

Lemma remove_openshift_objects_outcome_witness :
  _remove_openshift_objects (mkExportedProject ∅ images_demo)
  = Raise (KeyError "openshift")
  ∧ ∃ s,
      _remove_openshift_objects
        (mkExportedProject
           {[ "openshift" := [rc_generated; svc_web; rc_generated; dc_web] ]}
           images_demo) = Ok s
      ∧ artifacts s !! "openshift" = Some [svc_web; dc_web]
      ∧ images s = images_demo
      ∧ _remove_openshift_objects s = Ok s.
Proof.
  assert (H0 : artifacts (mkExportedProject ∅ images_demo) !! "openshift" = None)
    by (vm_compute; reflexivity).
  assert (Ho : artifacts (mkExportedProject
           {[ "openshift" := [rc_generated; svc_web; rc_generated; dc_web] ]}
           images_demo) !! "openshift"
         = Some [rc_generated; svc_web; rc_generated; dc_web])
    by (vm_compute; reflexivity).
  destruct (proj2 (remove_openshift_objects_outcome _) _ Ho)
    as (s & Hs & Hl & _ & Hi & _ & Hfix & _).
  exact (conj (proj1 (remove_openshift_objects_outcome _) H0)
           (ex_intro _ s (conj Hs (conj Hl (conj Hi Hfix))))).
Defined.

Lemma find_oc_outcome_witness :
  _find_oc (os := os_local) = Some "/usr/local/bin/oc"
  ∧ access_x_ok (Os := os_local) "/usr/local/bin/oc" = true
  ∧ access_x_ok (Os := os_local) (get_path (Os := os_local) "/usr/bin/oc") = false.
Proof.
  assert (H : _find_oc (os := os_local) = Some "/usr/local/bin/oc") by reflexivity.
  destruct (proj1 (find_oc_outcome (os := os_local)) _ H) as [Hx [Hp | [_ Hn]]].
  - discriminate Hp.
  - exact (conj H (conj Hx Hn)).
Defined.
